(** * ViTables: the logging console and the application launcher

    A shallow embedding of [vitables/logger.py] (the [Logger] console
    widget) and of [vitables/start.py] (the launcher: version check,
    command line, logging setup, exit-time cleanup), with the properties
    of both that the specification states.

    Conventions.  Python [str] values are [string]s; the escape
    sequences of the source are spelled with [LF] and [CR].  In
    [logger.py], which is Python 2, a [str] is a string of bytes, and
    PyQt hands it to Qt as Latin-1 characters, one per byte.  In
    [start.py], which is Python 3, a [string] holds the UTF-8 encoding
    of the [str]; the order of strings is the same by bytes and by code
    points.  The libraries the program calls (Qt's [QTextEdit],
    [argparse], [logging], PyTables' registry of open files) are
    modelled by the part of their behaviour the program relies on; what
    depends on the machine (text layout, the file system, the
    environment) is a variable of the section that uses it. *)

From stdpp Require Import strings.
From Stdlib Require Import String Ascii List ZArith NArith Bool Arith Lia.
From Stdlib Require Import DecimalString Decimal.
Import ListNotations.
Open Scope string_scope.
Open Scope list_scope.

(* ------------------------------------------------------------------ *)
(** * Python strings *)

Definition LF : ascii := "010"%char.
Definition CR : ascii := "013"%char.

(** [text.startswith(p)] *)
Fixpoint startswith (text p : string) : bool :=
  match p, text with
  | EmptyString, _ => true
  | String _ _, EmptyString => false
  | String c p', String d text' => Ascii.eqb c d && startswith text' p'
  end.

(** [text in items] for a list of strings. *)
Definition str_in (text : string) (items : list string) : bool :=
  existsb (String.eqb text) items.

(** [''.join(parts)] *)
Definition join (parts : list string) : string :=
  fold_right String.append "" parts.

(** [str(n)] for a non-negative integer. *)
Definition str_of_nat (n : nat) : string :=
  NilEmpty.string_of_uint (Nat.to_uint n).

(** One of the characters [0] to [9]. *)
Definition is_digit (c : ascii) : bool :=
  (48 <=? nat_of_ascii c)%nat && (nat_of_ascii c <=? 57)%nat.

(** ** The code points of a string

    The characters of the [str] whose UTF-8 encoding a [string] is, as
    Python decodes a command-line argument ([os.fsdecode], with the
    [surrogateescape] error handler): a byte that is not part of a
    well-formed sequence stands for the lone surrogate [U+DC00 + byte]. *)

Definition continuation (b : N) : bool := ((128 <=? b) && (b <=? 191))%N.

(** The second byte of a sequence of three or four bytes, which keeps
    out the overlong forms, the surrogates and what is above
    [U+10FFFF]. *)
Definition second_of_three (b1 b2 : N) : bool :=
  (if b1 =? 224 then (160 <=? b2) && (b2 <=? 191)
   else if b1 =? 237 then (128 <=? b2) && (b2 <=? 159)
   else continuation b2)%N.

Definition second_of_four (b1 b2 : N) : bool :=
  (if b1 =? 240 then (144 <=? b2) && (b2 <=? 191)
   else if b1 =? 244 then (128 <=? b2) && (b2 <=? 143)
   else continuation b2)%N.

Definition escaped (b : N) : N := (56320 + b)%N.

Fixpoint code_points (s : string) : list N :=
  match s with
  | EmptyString => []
  | String c1 rest1 =>
      let b1 := N_of_ascii c1 in
      let undecodable := escaped b1 :: code_points rest1 in
      if (b1 <? 128)%N then b1 :: code_points rest1
      else if ((194 <=? b1) && (b1 <=? 223))%N then
        match rest1 with
        | String c2 rest2 =>
            let b2 := N_of_ascii c2 in
            if continuation b2
            then ((b1 - 192) * 64 + (b2 - 128))%N :: code_points rest2
            else undecodable
        | _ => undecodable
        end
      else if ((224 <=? b1) && (b1 <=? 239))%N then
        match rest1 with
        | String c2 (String c3 rest3) =>
            let b2 := N_of_ascii c2 in
            let b3 := N_of_ascii c3 in
            if second_of_three b1 b2 && continuation b3
            then ((b1 - 224) * 4096 + (b2 - 128) * 64 + (b3 - 128))%N
                 :: code_points rest3
            else undecodable
        | _ => undecodable
        end
      else if ((240 <=? b1) && (b1 <=? 244))%N then
        match rest1 with
        | String c2 (String c3 (String c4 rest4)) =>
            let b2 := N_of_ascii c2 in
            let b3 := N_of_ascii c3 in
            let b4 := N_of_ascii c4 in
            if second_of_four b1 b2 && continuation b3 && continuation b4
            then ((b1 - 240) * 262144 + (b2 - 128) * 4096
                  + (b3 - 128) * 64 + (b4 - 128))%N
                 :: code_points rest4
            else undecodable
        | _ => undecodable
        end
      else undecodable
  end.

(** The decimal digits of Unicode (category [Nd], Unicode 14 as in
    Python 3.11), which [\d] matches in a pattern for [str]: they come
    in runs of ten, listed here by the code point of their zero. *)
Definition decimal_zeros : list N :=
  [48; 1632; 1776; 1984; 2406; 2534; 2662; 2790; 2918; 3046; 3174; 3302;
   3430; 3558; 3664; 3792; 3872; 4160; 4240; 6112; 6160; 6470; 6608; 6784;
   6800; 6992; 7088; 7232; 7248; 42528; 43216; 43264; 43472; 43504; 43600;
   44016; 65296; 66720; 68912; 69734; 69872; 69942; 70096; 70384; 70736;
   70864; 71248; 71360; 71472; 71904; 72016; 72784; 73040; 73120; 92768;
   92864; 93008; 120782; 120792; 120802; 120812; 120822; 123200; 123632;
   125264; 130032]%N.

Definition is_decimal (cp : N) : bool :=
  existsb (fun zero => (zero <=? cp) && (cp <? zero + 10))%N decimal_zeros.

(* ------------------------------------------------------------------ *)
(** * logger.py: the console widget *)

Module Logger.

(** [QtGui.QColor]: red, green and blue components. *)
Record QColor : Type := rgb { red : Z; green : Z; blue : Z }.

(** [QColor(name)] for the one colour name the source uses; a name that
    is no colour gives an invalid colour, whose components are 0. *)
Definition QColor_named (name : string) : QColor :=
  if String.eqb name "red" then rgb 255 0 0 else rgb 0 0 0.

(** What one call of [append] adds to the console's document: the text
    it was handed and the colour of the character format that was
    current then.  What the widget shows of it is [inserted], below. *)
Record Paragraph : Type := paragraph { par_text : string; par_color : QColor }.

(** The part of a [QTextEdit] the logger uses: the document, the
    position of the text cursor and the colour of the current character
    format.  The text cursor has no selection: with one, [setTextColor]
    colours the selected text instead of setting the current format. *)
Record QTextEdit : Type := mkTextEdit {
  document : list Paragraph;
  cursor : nat;
  current_color : QColor
}.

(** [QTextCursor.MoveOperation] *)
Inductive MoveOperation : Type := Start | StartOfLine | EndOfLine | End.

Section Widget.

(** Where a move operation takes the cursor depends on the layout of the
    text in the widget, and a moved cursor takes the character format of
    the text at its new position. *)
Variable movePosition : MoveOperation -> list Paragraph -> nat -> nat.
Variable colorAt : list Paragraph -> nat -> QColor.

Definition textColor (w : QTextEdit) : QColor := current_color w.

Definition setTextColor (c : QColor) (w : QTextEdit) : QTextEdit :=
  mkTextEdit (document w) (cursor w) c.

(** [QTextEdit.append]: the text goes to the end of the document, after
    what is there, with the current character format; the cursor and the
    current format are kept. *)
Definition append (text : string) (w : QTextEdit) : QTextEdit :=
  mkTextEdit (document w ++ [paragraph text (current_color w)])
             (cursor w) (current_color w).

Definition moveCursor (op : MoveOperation) (w : QTextEdit) : QTextEdit :=
  let p := movePosition op (document w) (cursor w) in
  mkTextEdit (document w) p (colorAt (document w) p).

Definition error_prefix : string := String LF "Error: ".
Definition warning_prefix : string := String LF "Warning: ".
Definition newline : string := String LF "".
Definition crlf : string := String CR (String LF "").

(** [Logger.write(self, text)] *)
Definition write (text : string) (self : QTextEdit) : QTextEdit :=
  let current_color := textColor self in
  if str_in text [newline; crlf] then self
  else
    let self :=
      if startswith text error_prefix then
        setTextColor (QColor_named "red") self
      else if startswith text warning_prefix then
        setTextColor (rgb 243 137 8) self
      else self in
    let self := append text self in
    let self := moveCursor EndOfLine self in
    setTextColor current_color self.

End Widget.

(** ** What the widget shows of a text

    [QTextEdit.append] gives the text to Qt as [Qt.AutoText]: a text
    that [Qt.mightBeRichText] accepts is inserted as HTML, whose
    formats are those of its markup, and any other text as plain text in
    the current character format.  The functions are those of Qt 4, on
    Latin-1 characters; the table of the element names that Qt's HTML
    parser knows, which has grown with the releases of Qt, is an
    argument. *)

(** [QChar.isSpace] and [QChar.isLetter]; [QChar.isDigit] is
    [is_digit]. *)
Definition isSpace (c : ascii) : bool :=
  let n := nat_of_ascii c in
  ((9 <=? n) && (n <=? 13) || (n =? 32) || (n =? 160))%nat.

Definition isLetter (c : ascii) : bool :=
  let n := nat_of_ascii c in
  ((65 <=? n) && (n <=? 90) || (97 <=? n) && (n <=? 122)
   || (n =? 170) || (n =? 181) || (n =? 186)
   || (192 <=? n) && (n <=? 214) || (216 <=? n) && (n <=? 246)
   || (248 <=? n))%nat.

(** [QString.toLower] *)
Definition toLower_char (c : ascii) : ascii :=
  let n := nat_of_ascii c in
  if ((65 <=? n) && (n <=? 90) || (192 <=? n) && (n <=? 214)
      || (216 <=? n) && (n <=? 222))%nat
  then ascii_of_nat (n + 32) else c.

Fixpoint toLower (s : string) : string :=
  match s with
  | EmptyString => EmptyString
  | String c rest => String (toLower_char c) (toLower rest)
  end.

(** The names of the elements in the table of Qt's HTML parser
    ([QTextHtmlParser::lookupElement]), as of Qt 4. *)
Definition html_elements : list string :=
  ["a"; "address"; "b"; "big"; "blockquote"; "body"; "br"; "caption";
   "center"; "cite"; "code"; "dd"; "dfn"; "div"; "dl"; "dt"; "em"; "font";
   "h1"; "h2"; "h3"; "h4"; "h5"; "h6"; "head"; "hr"; "html"; "i"; "img";
   "kbd"; "li"; "link"; "meta"; "nobr"; "ol"; "p"; "pre"; "qt"; "s";
   "samp"; "script"; "small"; "span"; "strong"; "style"; "sub"; "sup";
   "table"; "tbody"; "td"; "tfoot"; "th"; "thead"; "title"; "tr"; "tt";
   "u"; "ul"; "var"].

Fixpoint skip_spaces (s : string) : string :=
  match s with
  | EmptyString => EmptyString
  | String c rest => if isSpace c then skip_spaces rest else s
  end.

(** Past a leading [<?xml ... ?>]: the text after the first [?>] that
    has a character after it, nothing when there is none. *)
Fixpoint after_declaration (s : string) : string :=
  match s with
  | EmptyString => EmptyString
  | String c rest =>
      match rest with
      | String d (String e rest') =>
          if Ascii.eqb c "?" && Ascii.eqb d ">" then String e rest'
          else after_declaration rest
      | _ => after_declaration rest
      end
  end.

(** The scan of the first line for a [<]: the text after it, or the
    answer when the scan gives one ([&lt;] makes the text rich, the end
    of the line or of the text makes it plain). *)
Fixpoint scan_to_tag (s : string) : bool + string :=
  match s with
  | EmptyString => inl false
  | String c rest =>
      if Ascii.eqb c "<" then inr rest
      else if Ascii.eqb c LF then inl false
      else if Ascii.eqb c "&" && String.eqb (substring 0 3 rest) "lt;"
      then inl true
      else scan_to_tag rest
  end.

(** The text before the first [>]. *)
Fixpoint before_close (s : string) : option string :=
  match s with
  | EmptyString => None
  | String c rest =>
      if Ascii.eqb c ">" then Some EmptyString
      else match before_close rest with
           | Some inside => Some (String c inside)
           | None => None
           end
  end.

(** The name of the tag that starts with [inside], the text between
    [<] and [>]; none when that is no tag. *)
Fixpoint tag_name (inside tag : string) : option string :=
  match inside with
  | EmptyString => Some tag
  | String c rest =>
      if is_digit c || isLetter c then
        tag_name rest (tag ++ String c EmptyString)%string
      else if negb (String.eqb tag "") && isSpace c then Some tag
      else if negb (String.eqb tag "") && Ascii.eqb c "/"
              && String.eqb rest ""
      then Some tag
      else if negb (isSpace c)
              && (negb (String.eqb tag "") || negb (Ascii.eqb c "!"))
      then None
      else tag_name rest tag
  end.

(** [Qt.mightBeRichText(text)], for the table [elements] of the HTML
    parser. *)
Definition mightBeRichText (elements : list string) (text : string) : bool :=
  if String.eqb text "" then false
  else
    let text := skip_spaces text in
    (* skip a leading <?xml ... ?> *)
    let text :=
      if String.eqb (substring 0 5 text) "<?xml"
      then skip_spaces (after_declaration text) else text in
    if String.eqb (toLower (substring 0 5 text)) "<!doc" then true
    else
      match scan_to_tag text with
      | inl rich => rich
      | inr rest =>
          match before_close rest with
          | Some inside =>
              match tag_name inside "" with
              | Some tag => str_in (toLower tag) elements
              | None => false
              end
          | None => false
          end
      end.

(** How Qt inserts a text: as plain text in a colour, or as HTML. *)
Inductive Inserted : Type :=
| PlainText (text : string) (color : QColor)
| Html (markup : string).

(** What the widget shows of what [append] added. *)
Definition inserted (elements : list string) (p : Paragraph) : Inserted :=
  if mightBeRichText elements (par_text p) then Html (par_text p)
  else PlainText (par_text p) (par_color p).

(** ** The demonstration at the end of [logger.py]

    [print] writes its text and then a newline.  The layout used for it
    puts the cursor after the last paragraph, where the character format
    is the one that paragraph was appended with. *)

Definition at_end (_ : MoveOperation) (doc : list Paragraph) (_ : nat) : nat :=
  List.length doc.

Definition last_color (doc : list Paragraph) (_ : nat) : QColor :=
  par_color (List.last doc (paragraph "" (rgb 0 0 0))).

Definition demo : list string :=
  ["Hola mundo!"; newline;
   String LF "Error: El viatger del crepuscle"; newline;
   String LF "Warning: Adolf Piquer"; newline;
   "Adéu!"; newline].

End Logger.

(* ------------------------------------------------------------------ *)
(** * Outcomes of a call *)

(** The argument of [sys.exit]: an exit status, or a message (printed
    on stderr, the status is then 1). *)
Inductive ExitStatus : Type :=
| ExitCode (status : Z)
| ExitMessage (msg : string).

(** An exception: the name of its class and its [str()].  The
    exceptions the modelled calls raise are instances of [Exception]
    ([OSError], [AttributeError], [KeyError], [TypeError]). *)
Record Exn : Type := exception { exc_type : string; exc_str : string }.

(** How a call ends: it returns, it raises [SystemExit], or it raises
    an [Exception]. *)
Inductive Outcome (A : Type) : Type :=
| Returned (a : A)
| SystemExit (status : ExitStatus)
| Raised (e : Exn).

Arguments Returned {A} a.
Arguments SystemExit {A} status.
Arguments Raised {A} e.

(* ------------------------------------------------------------------ *)
(** * Python values *)

(** The values the launcher handles where the type is not fixed: an
    attribute that [argparse] stores, the [verbose] argument of the exit
    function.  A list is a list of strings. *)
Inductive PyValue : Type :=
| PyNone
| PyBool (b : bool)
| PyInt (n : Z)
| PyStr (s : string)
| PyList (items : list string).

Coercion PyStr : string >-> PyValue.

(** The value as a condition. *)
Definition truthy (v : PyValue) : bool :=
  match v with
  | PyNone => false
  | PyBool b => b
  | PyInt n => negb (n =? 0)%Z
  | PyStr s => negb (String.eqb s "")
  | PyList items => match items with [] => false | _ => true end
  end.

(** [type(v).__name__] *)
Definition type_name (v : PyValue) : string :=
  match v with
  | PyNone => "NoneType"
  | PyBool _ => "bool"
  | PyInt _ => "int"
  | PyStr _ => "str"
  | PyList _ => "list"
  end.

(** The [AttributeError] for an attribute that an object of the class
    [class_name] has not. *)
Definition attribute_error (class_name attribute : string) : Exn :=
  exception "AttributeError"
    ("'" ++ class_name ++ "' object has no attribute '" ++ attribute
     ++ "'")%string.

(* ------------------------------------------------------------------ *)
(** * argparse, for the parser that [_parse_command_line] builds *)

Module Argparse.

(** The model follows CPython's [argparse], as of Python 3.11, in what
    it does for this parser: [_parse_optional] and [_get_option_tuples] (exact option
    strings, [--opt=value], unique prefixes of long options, arguments
    attached to short options, negative numbers), the loop of
    [_parse_known_args] ([consume_optional] with its clusters of short
    options, [consume_positionals] for the one positional, ["--"]),
    [take_action] with [_get_values] (which drops the first ["--"] from
    the argument strings of every action, so that an option given
    ["--"] as its attached argument stores an empty list) and the check
    of [choices], and the report of unrecognised arguments.  Usage, help
    and version texts are not modelled: an exit is known by its cause
    and its status. *)

(** The optional actions of the parser: [-h/--help] (added by
    [ArgumentParser]), [--version], [-m/--mode], [-d/--dblist],
    [-l/--log-file], [-v/--verbose].  The positional [h5file] is the
    parser's only positional action. *)
Inductive Action : Type := Help | Version | Mode | Dblist | LogFile | Verbose.

(** [parser._option_string_actions], in the order of the [add_argument]
    calls. *)
Definition option_string_actions : list (string * Action) :=
  [("-h", Help); ("--help", Help); ("--version", Version);
   ("-m", Mode); ("--mode", Mode); ("-d", Dblist); ("--dblist", Dblist);
   ("-l", LogFile); ("--log-file", LogFile);
   ("-v", Verbose); ("--verbose", Verbose)].

Definition optionals_map (option_string : string) : option Action :=
  match find (fun p => String.eqb (fst p) option_string)
             option_string_actions with
  | Some p => Some (snd p)
  | None => None
  end.

(** Number of argument strings of an optional: [action='version'],
    [action='help'] and [action='count'] take none, the default
    [action='store'] takes one. *)
Definition nargs (a : Action) : nat :=
  match a with
  | Help | Version | Verbose => 0
  | Mode | Dblist | LogFile => 1
  end.

(** [choices=['r', 'a']] of [-m/--mode]. *)
Definition choices (a : Action) : option (list string) :=
  match a with
  | Mode => Some ["r"; "a"]
  | _ => None
  end.

(** The attributes of the [Namespace] that [parse_args] returns.  What
    [store] leaves in [mode], [dblist] and [log_file] is a string or a
    list; [log_file] is [None] until it is stored. *)
Record Namespace : Type := namespace {
  mode : PyValue;
  dblist : PyValue;
  log_file : PyValue;
  verbose : nat;
  h5file : list string
}.

Definition set_mode v ns :=
  namespace v (dblist ns) (log_file ns) (verbose ns) (h5file ns).
Definition set_dblist v ns :=
  namespace (mode ns) v (log_file ns) (verbose ns) (h5file ns).
Definition set_log_file v ns :=
  namespace (mode ns) (dblist ns) v (verbose ns) (h5file ns).
Definition set_verbose v ns :=
  namespace (mode ns) (dblist ns) (log_file ns) v (h5file ns).
Definition set_h5file v ns :=
  namespace (mode ns) (dblist ns) (log_file ns) (verbose ns) v.

(** The namespace before any argument is parsed: the defaults of the
    actions ([log_file] has none, [verbose] has [default=0]) overridden
    by [parser.set_defaults(mode='a', dblist='', h5file=[])]. *)
Definition defaults : Namespace :=
  namespace "a" "" PyNone 0 [].

(** The errors [parse_args] reports (each prints the usage and exits
    with status 2). *)
Inductive ArgumentError : Type :=
| AmbiguousOption (arg_string : string) (matches : list string)
| ExpectedOneArgument (a : Action)
| IgnoredExplicitArgument (a : Action) (explicit_arg : string)
| InvalidChoice (a : Action) (value : string)
| UnrecognizedArguments (extras : list string).

(** ** Strings *)

Definition dash : ascii := "-"%char.

Fixpoint contains (c : ascii) (s : string) : bool :=
  match s with
  | EmptyString => false
  | String d s' => Ascii.eqb c d || contains c s'
  end.

(** [s.split(c, 1)] when [c] occurs in [s]. *)
Fixpoint split1 (c : ascii) (s : string) : option (string * string) :=
  match s with
  | EmptyString => None
  | String d s' =>
      if Ascii.eqb c d then Some (EmptyString, s')
      else match split1 c s' with
           | Some (l, r) => Some (String d l, r)
           | None => None
           end
  end.

(** [\d*] and [\d+] on the characters of a [str]. *)
Definition all_digits (l : list N) : bool := forallb is_decimal l.

Definition digits1 (l : list N) : bool :=
  match l with
  | [] => false
  | _ => all_digits l
  end.

(** The [$] of a Python regular expression also matches before a final
    newline. *)
Fixpoint chomp (l : list N) : list N :=
  match l with
  | [] => []
  | [c] => if (c =? 10)%N then [] else l
  | c :: l' => c :: chomp l'
  end.

(** The characters before and after the first full stop. *)
Fixpoint split_at_stop (l : list N) : option (list N * list N) :=
  match l with
  | [] => None
  | c :: l' =>
      if (c =? 46)%N then Some ([], l')
      else match split_at_stop l' with
           | Some (before, after) => Some (c :: before, after)
           | None => None
           end
  end.

(** [parser._negative_number_matcher]: [^-\d+$|^-\d*\.\d+$]. *)
Definition negative_number (s : string) : bool :=
  match code_points s with
  | c :: body =>
      (c =? 45)%N &&
      (let body := chomp body in
       digits1 body ||
       match split_at_stop body with
       | Some (before, after) => all_digits before && digits1 after
       | None => false
       end)
  | [] => false
  end.

(** ** Recognising option strings *)

(** What [_parse_optional] tells of an argument string that is an
    option: the action (none when no option of the parser matches), the
    option string and the argument attached to it. *)
Definition OptionTuple : Type := (option Action * string * option string)%type.

Definition second_is_dash (s : string) : bool :=
  match s with
  | String _ (String c _) => Ascii.eqb c dash
  | _ => false
  end.

Definition get_option_tuples (option_string : string) : list OptionTuple :=
  if second_is_dash option_string then
    let '(option_prefix, explicit_arg) :=
      match split1 "="%char option_string with
      | Some (l, r) => (l, Some r)
      | None => (option_string, None)
      end in
    flat_map (fun p : string * Action =>
                if startswith (fst p) option_prefix
                then [(Some (snd p), fst p, explicit_arg)] else [])
             option_string_actions
  else
    let option_prefix := option_string in
    let short_option_prefix := substring 0 2 option_string in
    let short_explicit_arg :=
      substring 2 (String.length option_string - 2) option_string in
    flat_map (fun p : string * Action =>
                if String.eqb (fst p) short_option_prefix
                then [(Some (snd p), fst p, Some short_explicit_arg)]
                else if startswith (fst p) option_prefix
                then [(Some (snd p), fst p, None)] else [])
             option_string_actions.

(** [_parse_optional]: [inr None] for a positional argument string. *)
Definition parse_optional (arg_string : string)
  : ArgumentError + option OptionTuple :=
  match arg_string with
  | EmptyString => inr None
  | String c0 _ =>
      if negb (Ascii.eqb c0 dash) then inr None
      else
        match optionals_map arg_string with
        | Some a => inr (Some (Some a, arg_string, None))
        | None =>
            if (String.length arg_string =? 1)%nat then inr None
            else
              let exact_before_eq :=
                match split1 "="%char arg_string with
                | Some (option_string, explicit_arg) =>
                    match optionals_map option_string with
                    | Some a => Some (Some a, option_string, Some explicit_arg)
                    | None => None
                    end
                | None => None
                end in
              match exact_before_eq with
              | Some t => inr (Some t)
              | None =>
                  match get_option_tuples arg_string with
                  | [t] => inr (Some t)
                  | (_ :: _ :: _) as ts =>
                      inl (AmbiguousOption arg_string
                             (map (fun t : OptionTuple => snd (fst t)) ts))
                  | [] =>
                      if negative_number arg_string then inr None
                      else if contains " "%char arg_string then inr None
                      else inr (Some (None, arg_string, None))
                  end
              end
        end
  end.

(** The pattern of the argument strings: ['A'] for an argument, ['-']
    for the first ["--"], ['O'] for an option. *)
Inductive Token : Type :=
| Arg (arg_string : string)
| DoubleDash
| Opt (t : OptionTuple).

Fixpoint classify (arg_strings : list string) : ArgumentError + list Token :=
  match arg_strings with
  | [] => inr []
  | arg_string :: rest =>
      if String.eqb arg_string "--" then inr (DoubleDash :: map Arg rest)
      else
        match parse_optional arg_string with
        | inl e => inl e
        | inr o =>
            match classify rest with
            | inl e => inl e
            | inr ts =>
                inr (match o with Some t => Opt t | None => Arg arg_string end
                     :: ts)
            end
        end
  end.

(** ** Matching arguments to actions *)

(** What the parser does next, in order: it takes an optional action
    with its argument strings, it takes the positional action, it sets
    an unrecognised string aside, or it raises. *)
Inductive Step : Type :=
| Take (a : Action) (args : list string)
| TakePositional (args : list string)
| Extra (arg_string : string)
| Fail (e : ArgumentError).

(** The loop of [consume_optional] over an explicit argument: an action
    without arguments that was given by a single-dash option lets the
    rest of the string name further single-dash options ([-vv],
    [-vdFILE]).  The result is the actions matched with their arguments
    and, when the string ended on an option, the action whose arguments
    are still to be read from the following strings. *)
Fixpoint explicit_loop (a : Action) (single_dash : bool) (explicit_arg : string)
  : ArgumentError + (list (Action * list string) * option Action) :=
  match nargs a with
  | 0 =>
      match explicit_arg with
      | String c tl =>
          if single_dash then
            match optionals_map (String dash (String c EmptyString)) with
            | Some a' =>
                if String.eqb tl "" then inr ([(a, [])], Some a')
                else
                  match explicit_loop a' (negb (Ascii.eqb c dash)) tl with
                  | inl e => inl e
                  | inr (tuples, last) => inr ((a, []) :: tuples, last)
                  end
            | None => inl (IgnoredExplicitArgument a explicit_arg)
            end
          else inl (IgnoredExplicitArgument a explicit_arg)
      | EmptyString => inl (IgnoredExplicitArgument a explicit_arg)
      end
  | _ => inr ([(a, [explicit_arg])], None)
  end.

(** Which of the parser's positionals (there is one, [h5file] with
    [nargs='*']) is still to be matched. *)
Inductive Positionals : Type :=
| Pending
| Collecting (args : list string)
| Consumed.

Definition takes (tuples : list (Action * list string)) : list Step :=
  map (fun t => Take (fst t) (snd t)) tuples.

(** The alternation of [consume_positionals] and [consume_optional] in
    [_parse_known_args].  The positional takes the first run of argument
    strings met where an option could start (a ["--"] inside the run is
    dropped); once it is consumed, further such strings are extras. *)
Fixpoint consume (ts : list Token) (pos : Positionals) : list Step :=
  match ts with
  | [] =>
      match pos with
      | Pending => [TakePositional []]
      | Collecting args => [TakePositional args]
      | Consumed => []
      end
  | Arg s :: rest =>
      match pos with
      | Pending => consume rest (Collecting [s])
      | Collecting args => consume rest (Collecting (args ++ [s]))
      | Consumed => Extra s :: consume rest Consumed
      end
  | DoubleDash :: rest =>
      match pos with
      | Pending => consume rest (Collecting [])
      | Collecting args => consume rest (Collecting args)
      | Consumed => Extra "--" :: consume rest Consumed
      end
  | Opt (o, option_string, explicit_arg) :: rest =>
      let before :=
        match pos with Collecting args => [TakePositional args] | _ => [] end in
      let pos :=
        match pos with Collecting _ => Consumed | _ => pos end in
      let following (a : Action) (tuples : list (Action * list string)) :=
        match nargs a with
        | 0 => takes (tuples ++ [(a, [])]) ++ consume rest pos
        | _ =>
            match rest with
            | Arg v :: rest' =>
                takes (tuples ++ [(a, [v])]) ++ consume rest' pos
            | _ => [Fail (ExpectedOneArgument a)]
            end
        end in
      before ++
      match o with
      | None => Extra option_string :: consume rest pos
      | Some a =>
          match explicit_arg with
          | None => following a []
          | Some explicit_arg =>
              match explicit_loop a (negb (second_is_dash option_string))
                                  explicit_arg with
              | inl e => [Fail e]
              | inr (tuples, None) => takes tuples ++ consume rest pos
              | inr (tuples, Some a') => following a' tuples
              end
          end
      end
  end.

(** How [parse_args] ends when it does not return: help or version was
    printed (status 0), or an error was reported (status 2). *)
Inductive ParserExit : Type :=
| HelpPrinted
| VersionPrinted
| ParserError (e : ArgumentError).

Definition exit_status (x : ParserExit) : Z :=
  match x with
  | HelpPrinted | VersionPrinted => 0
  | ParserError _ => 2
  end.

(** [_check_value]: a value is refused when the action has choices and
    the value is none of them. *)
Definition check_value (a : Action) (value : string) : bool :=
  match choices a with
  | Some allowed => str_in value allowed
  | None => true
  end.

(** [arg_strings.remove('--')]: the first ["--"] is dropped, if there
    is one. *)
Fixpoint remove_double_dash (arg_strings : list string) : list string :=
  match arg_strings with
  | [] => []
  | arg_string :: rest =>
      if String.eqb arg_string "--" then rest
      else arg_string :: remove_double_dash rest
  end.

(** [_get_values] for an optional that takes one argument string
    ([nargs=None]): the first ["--"] is dropped; a single string that
    is left is the value, once checked; otherwise the value is the list
    of what is left, each string checked. *)
Definition get_values (a : Action) (arg_strings : list string)
  : ArgumentError + PyValue :=
  let arg_strings := remove_double_dash arg_strings in
  match arg_strings with
  | [arg_string] =>
      if check_value a arg_string then inr (PyStr arg_string)
      else inl (InvalidChoice a arg_string)
  | _ =>
      match find (fun v => negb (check_value a v)) arg_strings with
      | Some v => inl (InvalidChoice a v)
      | None => inr (PyList arg_strings)
      end
  end.

(** The [store] action: [setattr(namespace, self.dest, values)]. *)
Definition store (a : Action) (value : PyValue) (ns : Namespace) : Namespace :=
  match a with
  | Mode => set_mode value ns
  | Dblist => set_dblist value ns
  | LogFile => set_log_file value ns
  | Help | Version | Verbose => ns
  end.

(** [take_action] for an optional: the value is made by [_get_values],
    then the action is called.  [help] and [version] print and exit,
    [count] adds one to the attribute. *)
Definition take_action (a : Action) (args : list string) (ns : Namespace)
  : ParserExit + Namespace :=
  match a with
  | Help => inl HelpPrinted
  | Version => inl VersionPrinted
  | Verbose => inr (set_verbose (S (verbose ns)) ns)
  | Mode | Dblist | LogFile =>
      match args with
      | [_] =>
          match get_values a args with
          | inl e => inl (ParserError e)
          | inr value => inr (store a value ns)
          end
      | _ => inl (ParserError (ExpectedOneArgument a))
      end
  end.

Fixpoint run (steps : list Step) (ns : Namespace) (extras : list string)
  : ParserExit + Namespace :=
  match steps with
  | [] =>
      match extras with
      | [] => inr ns
      | _ => inl (ParserError (UnrecognizedArguments extras))
      end
  | Fail e :: _ => inl (ParserError e)
  | Extra s :: rest => run rest ns (extras ++ [s])
  | TakePositional args :: rest => run rest (set_h5file args ns) extras
  | Take a args :: rest =>
      match take_action a args ns with
      | inl x => inl x
      | inr ns' => run rest ns' extras
      end
  end.

(** The steps the parser goes through on a command line. *)
Definition steps_of (argv : list string) : ArgumentError + list Step :=
  match classify argv with
  | inl e => inl e
  | inr ts => inr (consume ts Pending)
  end.

(** [parser.parse_args()] on the arguments [argv] (that is,
    [sys.argv[1:]]). *)
Definition parse_args (argv : list string) : ParserExit + Namespace :=
  match steps_of argv with
  | inl e => inl (ParserError e)
  | inr steps => run steps defaults []
  end.

(** ** Reading the steps *)

Definition Action_eqb (a b : Action) : bool :=
  match a, b with
  | Help, Help | Version, Version | Mode, Mode | Dblist, Dblist
  | LogFile, LogFile | Verbose, Verbose => true
  | _, _ => false
  end.

(** The value an option is given on the command line: the argument of
    the last occurrence of its action among the steps, [cur] when it
    does not occur. *)
Fixpoint given_from (a : Action) (steps : list Step) (cur : option string)
  : option string :=
  match steps with
  | [] => cur
  | Take b [v] :: rest =>
      given_from a rest (if Action_eqb a b then Some v else cur)
  | _ :: rest => given_from a rest cur
  end.

Definition given (a : Action) (steps : list Step) : option string :=
  given_from a steps None.

(** The argument lists the positional action was taken with. *)
Fixpoint positionals (steps : list Step) : list (list string) :=
  match steps with
  | [] => []
  | TakePositional args :: rest => args :: positionals rest
  | _ :: rest => positionals rest
  end.

Definition is_fail (s : Step) : bool :=
  match s with Fail _ => true | _ => false end.

(** How many times the positional action is still to be taken. *)
Definition expected (pos : Positionals) : nat :=
  match pos with Consumed => 0 | _ => 1 end.

(** What an option that takes one argument stores for an argument
    string: the string, or the empty list for ["--"]. *)
Definition stored (arg_string : string) : PyValue :=
  if String.eqb arg_string "--" then PyList [] else PyStr arg_string.

Definition is_extra (s : Step) : bool :=
  match s with Extra _ => true | _ => false end.

(** ** The file paths of a command line, as given

    The strings of the command line in their order, without the option
    strings, without the string an option takes as its argument when
    the argument is not attached to it, and without the first ["--"],
    after which every string is a path. *)

(** The option string [t] was recognised in ends on an option whose
    argument is the next string of the command line. *)
Definition wants_argument (t : OptionTuple) : bool :=
  match t with
  | (Some a, _, None) => negb (nargs a =? 0)%nat
  | (Some a, option_string, Some explicit_arg) =>
      match explicit_loop a (negb (second_is_dash option_string))
                          explicit_arg with
      | inr (_, Some a') => negb (nargs a' =? 0)%nat
      | _ => false
      end
  | (None, _, _) => false
  end.

Fixpoint paths_from (argument_expected : bool) (argv : list string)
  : list string :=
  match argv with
  | [] => []
  | arg_string :: rest =>
      if String.eqb arg_string "--" then rest
      else if argument_expected then paths_from false rest
      else
        match parse_optional arg_string with
        | inr (Some t) => paths_from (wants_argument t) rest
        | inr None => arg_string :: paths_from false rest
        | inl _ => paths_from false rest
        end
  end.

Definition paths_given (argv : list string) : list string :=
  paths_from false argv.

(** The same reading, of the pattern of the command line. *)
Fixpoint token_paths (argument_expected : bool) (ts : list Token)
  : list string :=
  match ts with
  | [] => []
  | DoubleDash :: rest => token_paths false rest
  | Arg arg_string :: rest =>
      if argument_expected then token_paths false rest
      else arg_string :: token_paths false rest
  | Opt t :: rest =>
      if argument_expected then token_paths false rest
      else token_paths (wants_argument t) rest
  end.

End Argparse.

(* ------------------------------------------------------------------ *)
(** * The state the launcher acts on *)

(** The levels of the [logging] module. *)
Definition CRITICAL : Z := 50.
Definition ERROR : Z := 40.
Definition WARNING : Z := 30.
Definition INFO : Z := 20.
Definition DEBUG : Z := 10.
Definition NOTSET : Z := 0.

(** A [logging.Handler]: where it writes, its format string if it was
    given a formatter, and its own level. *)
Inductive Target : Type :=
| Stderr
| LogFileAt (filename : string).

Record Handler : Type := handler {
  target : Target;
  formatter : option string;
  handler_level : Z
}.

Record LogRecord : Type := log_record {
  logger_name : string;
  levelno : Z;
  message : string
}.

(** A [tables.File] handle. *)
Record File : Type := file_handle { filename : string; file_id : nat }.

(** [tables.file._open_files].  From PyTables 3.1 on it is a registry
    object, of the class [_FileRegistry], whose [handlers] attribute
    holds the open handles, here in the order in which it gives them;
    before, it was a dictionary from file names to handles, here the
    list of its items in the order they were inserted, which is the
    order in which a dictionary gives its keys.  The keys of a
    dictionary are distinct. *)
Inductive Registry : Type :=
| FileRegistry (handlers : list File)
| FilesDict (items : list (string * File)).

(** [d.keys()], [d[key]] when the key is there, and [del d[key]]. *)
Definition keys (items : list (string * File)) : list string :=
  map fst items.

Fixpoint getitem (key : string) (items : list (string * File))
  : option File :=
  match items with
  | [] => None
  | (k, v) :: rest => if String.eqb k key then Some v else getitem key rest
  end.

Definition delitem (key : string) (items : list (string * File))
  : list (string * File) :=
  List.filter (fun kv => negb (String.eqb (fst kv) key)) items.

(** A traceback object: the stack entries from the handler's frame to
    the frame that raised. *)
Record FrameSummary : Type := frame_summary {
  frame_filename : string;
  frame_lineno : nat;
  frame_name : string
}.

Definition Traceback : Type := list FrameSummary.

(** What the launcher does to the outside, in the order it does it. *)
Inductive Event : Type :=
| Emit (h : Handler) (r : LogRecord)
| StderrWrite (s : string)
| Close (f : File)
| DefaultExcepthook (type_ : string) (value : Exn) (tb : Traceback).

Record World : Type := world {
  root_level : Z;                 (* level of the root logger *)
  root_handlers : list Handler;   (* handlers of the root logger *)
  tables_version : string;        (* tables.__version__ *)
  open_files : Registry;          (* tables.file._open_files *)
  trace : list Event
}.

(** The state when [start.py] is loaded, for an installed PyTables
    [version] and its registry [reg]: the root logger is at [WARNING]
    and has no handler, nothing has happened. *)
Definition initial_world (version : string) (reg : Registry) : World :=
  world WARNING [] version reg [].

(** ** A state and exception monad over [World] *)

Definition M (A : Type) : Type := World -> Outcome A * World.

Definition ret {A} (a : A) : M A := fun w => (Returned a, w).

Definition bind {A B} (m : M A) (k : A -> M B) : M B :=
  fun w =>
    match m w with
    | (Returned a, w') => k a w'
    | (SystemExit s, w') => (SystemExit s, w')
    | (Raised e, w') => (Raised e, w')
    end.

Notation "x <- c1 ;; c2" := (bind c1 (fun x => c2))
  (at level 20, c1 at level 99, c2 at level 200, only parsing).
Notation "c1 ;; c2" := (bind c1 (fun _ => c2))
  (at level 100, c2 at level 200, only parsing, right associativity).

Definition raise {A} (e : Exn) : M A := fun w => (Raised e, w).

(** [sys.exit(arg)] *)
Definition sys_exit {A} (arg : ExitStatus) : M A :=
  fun w => (SystemExit arg, w).

Definition get : M World := fun w => (Returned w, w).

Definition put (w : World) : M unit := fun _ => (Returned tt, w).

Definition event (e : Event) : M unit :=
  fun w =>
    (Returned tt,
     world (root_level w) (root_handlers w) (tables_version w) (open_files w)
           (trace w ++ [e])).

(** [try: body / except Exception as e: handler(e)].  [SystemExit] is
    not an [Exception] and passes through. *)
Definition try_except {A} (body : M A) (handler : Exn -> M A) : M A :=
  fun w =>
    match body w with
    | (Raised e, w') => handler e w'
    | r => r
    end.

(** [acc = []] then [for x in l: acc.append(item(x))] *)
Fixpoint for_list {A B} (l : list A) (item : A -> M B) : M (list B) :=
  match l with
  | [] => ret []
  | x :: l' => y <- item x ;; ys <- for_list l' item ;; ret (y :: ys)
  end.

(** [for x in l: body(x)] *)
Fixpoint for_each {A} (l : list A) (body : A -> M unit) : M unit :=
  match l with
  | [] => ret tt
  | x :: l' => body x ;; for_each l' body
  end.

(** ** The logging module *)

(** [logging.lastResort]: a handler to stderr at level [WARNING], used
    when no handler is found. *)
Definition lastResort : Handler := handler Stderr None WARNING.

(** [Logger.isEnabledFor(level)] for the root logger, and for a logger
    that has no level of its own (it takes the root's). *)
Definition isEnabledFor (level : Z) (w : World) : bool :=
  (root_level w <=? level)%Z.

(** [Logger.callHandlers(record)] for the root logger, and for a logger
    without handlers that propagates to it: every handler whose level
    admits the record handles it; without any handler, [lastResort]
    does. *)
Definition callHandlers (r : LogRecord) : M unit :=
  w <- get ;;
  match root_handlers w with
  | [] =>
      if (handler_level lastResort <=? levelno r)%Z
      then event (Emit lastResort r) else ret tt
  | hs =>
      for_each hs (fun h =>
        if (handler_level h <=? levelno r)%Z then event (Emit h r) else ret tt)
  end.

(** [logging.getLogger(name).error(msg)]; the root logger's name is
    ["root"]. *)
Definition Logger_error (name : string) (msg : string) : M unit :=
  w <- get ;;
  if isEnabledFor ERROR w
  then callHandlers (log_record name ERROR msg)
  else ret tt.

(** [logging.getLogger().addHandler(hdlr)] for a handler just made. *)
Definition addHandler (hdlr : Handler) : M unit :=
  w <- get ;;
  put (world (root_level w) (root_handlers w ++ [hdlr]) (tables_version w)
             (open_files w) (trace w)).

(** [logging.getLogger().setLevel(level)] *)
Definition setLevel (level : Z) : M unit :=
  w <- get ;;
  put (world level (root_handlers w) (tables_version w) (open_files w)
             (trace w)).

(** [logging.StreamHandler()]: to [sys.stderr], no formatter, level
    [NOTSET]. *)
Definition StreamHandler : Handler := handler Stderr None NOTSET.

Definition setFormatter (fmt : string) (h : Handler) : Handler :=
  handler (target h) (Some fmt) (handler_level h).

(** ** The state after an operation *)

Definition add_events (evs : list Event) (w : World) : World :=
  world (root_level w) (root_handlers w) (tables_version w) (open_files w)
        (trace w ++ evs).

Definition add_handler (h : Handler) (w : World) : World :=
  world (root_level w) (root_handlers w ++ [h]) (tables_version w)
        (open_files w) (trace w).

Definition set_level (level : Z) (w : World) : World :=
  world level (root_handlers w) (tables_version w) (open_files w) (trace w).

(** The handlers a record of the root logger (or of a logger that
    propagates to it) reaches. *)
Definition admits (r : LogRecord) (h : Handler) : bool :=
  (handler_level h <=? levelno r)%Z.

Definition receivers (r : LogRecord) (w : World) : list Handler :=
  match root_handlers w with
  | [] => if admits r lastResort then [lastResort] else []
  | hs => List.filter (admits r) hs
  end.

(** The events of [getLogger(name).error(msg)]. *)
Definition logged (name msg : string) (w : World) : list Event :=
  if isEnabledFor ERROR w
  then map (fun h => Emit h (log_record name ERROR msg))
           (receivers (log_record name ERROR msg) w)
  else [].

(* ------------------------------------------------------------------ *)
(** * start.py: the launcher *)

Module Start.

Import Argparse.

(** Python's [<] and [>=] on strings: lexicographic, by code point. *)
Definition str_lt (a b : string) : bool := (a <? b)%string.
Definition str_ge (a b : string) : bool := (b <=? a)%string.

(** [_VERBOSITY_LOGLEVEL_DICT] *)
Definition _VERBOSITY_LOGLEVEL_DICT : list (nat * Z) :=
  [(0, ERROR); (1, WARNING); (2, INFO); (3, DEBUG)].

(** [d[key]] when [key in d]. *)
Fixpoint dict_get (d : list (nat * Z)) (key : nat) : option Z :=
  match d with
  | [] => None
  | (k, v) :: d' => if (k =? key)%nat then Some v else dict_get d' key
  end.

Definition _FILE_LOG_FORMAT : string :=
  "%(asctime)s - %(name)s - %(levelname)s - %(message)s".

(** ** The order of versions

    What "version 3.0 or above" means: the release numbers of a dotted
    version string, compared number by number, a missing number
    counting as zero. *)

Definition digit_value (c : ascii) : nat := nat_of_ascii c - 48.

Fixpoint release_from (s : string) (cur : nat) : option (list nat) :=
  match s with
  | EmptyString => Some [cur]
  | String c s' =>
      if Ascii.eqb c "."%char then
        match release_from s' 0 with
        | Some l => Some (cur :: l)
        | None => None
        end
      else if is_digit c then
        release_from s' (10 * cur + digit_value c)
      else None
  end.

(** The release of a version string made of numbers and dots:
    ["3.10.1"] is [[3; 10; 1]]. *)
Definition release (version : string) : option (list nat) :=
  release_from version 0.

Fixpoint release_lt (a b : list nat) : bool :=
  match a, b with
  | _, [] => false
  | [], _ => negb (forallb (Nat.eqb 0) b)
  | x :: a', y :: b' =>
      if (x <? y)%nat then true
      else if (y <? x)%nat then false
      else release_lt a' b'
  end.

(** [version_below v t]: version [v] is below version [t]. *)
Definition version_below (v t : string) : option bool :=
  match release v, release t with
  | Some a, Some b => Some (release_lt a b)
  | _, _ => None
  end.

Section Launcher.

(** The machine: [os.path.expanduser] and [os.path.expandvars] (the
    user's home and the environment), the exception with which opening
    a file for logging fails, if it does, and the rendering of a
    traceback by [traceback.format_tb]. *)
Variable expanduser : string -> string.
Variable expandvars : string -> string.
Variable open_failure : string -> option Exn.
Variable format_tb : Traceback -> list string.

(** [_uncaught_exception_hook(type_, value, tb)] *)
Definition _uncaught_exception_hook
    (type_ : string) (value : Exn) (tb : Traceback) : M unit :=
  Logger_error "uncaught_logger"
               (join (format_tb tb) ++ exc_str value)%string ;;
  event (DefaultExcepthook type_ value tb).

(** [_check_versions()] *)
Definition _check_versions : M unit :=
  w <- get ;;
  if str_lt (tables_version w) "3.0" then
    sys_exit (ExitMessage
      ("FATAL: PyTables version 3.0 or above is required, "
       ++ "installed version is " ++ tables_version w)%string)
  else ret tt.

(** [_parse_command_line()], with [sys.argv[1:]] as [argv]. *)
Definition _parse_command_line (argv : list string) : Outcome Namespace :=
  match parse_args argv with
  | inl x => SystemExit (ExitCode (exit_status x))
  | inr args =>
      if truthy (dblist args) then
        (* Other options and positional arguments are silently ignored *)
        let args := set_mode "" args in
        let args := set_h5file [] args in
        Returned args
      else Returned args
  end.

(** [logging.FileHandler(filename)]: opens the file, or raises. *)
Definition FileHandler (filename : string) : M Handler :=
  match open_failure filename with
  | Some e => raise e
  | None => ret (handler (LogFileAt filename) None NOTSET)
  end.

(** The [TypeError] of [os.fspath]. *)
Definition not_a_path (v : PyValue) : Exn :=
  exception "TypeError"
    ("expected str, bytes or os.PathLike object, not " ++ type_name v)%string.

(** [os.path.expanduser(path)]: what is no path raises [TypeError]. *)
Definition expanduser_value (path : PyValue) : M string :=
  match path with
  | PyStr s => ret (expanduser s)
  | v => raise (not_a_path v)
  end.

(** [_setup_logger(args)].  The logger it returns with the handler is
    the root logger, which is part of the state. *)
Definition _setup_logger (args : Namespace) : M Handler :=
  let file_formatter := _FILE_LOG_FORMAT in
  let temporary_stderr_handler := StreamHandler in
  let temporary_stderr_handler :=
    setFormatter file_formatter temporary_stderr_handler in
  addHandler temporary_stderr_handler ;;
  match log_file args with
  | PyNone => ret tt
  | log_file =>
      try_except
        (expanded <- expanduser_value log_file ;;
         let log_filename := expandvars expanded in
         file_handler <- FileHandler log_filename ;;
         let file_handler := setFormatter file_formatter file_handler in
         addHandler file_handler)
        (fun e =>
           Logger_error "root" "Failed to open log file" ;;
           Logger_error "root" (exc_str e))
  end ;;
  match dict_get _VERBOSITY_LOGLEVEL_DICT (verbose args) with
  | Some level => setLevel level
  | None =>
      setLevel ERROR ;;
      Logger_error "root"
        ("Invalid verbosity level: " ++ str_of_nat (verbose args)
         ++ ", error level set to ERROR")%string
  end ;;
  ret temporary_stderr_handler.

(** ** The states [_setup_logger] goes through *)

(** The handler [_setup_logger] installs first and returns. *)
Definition temporary_stderr_handler : Handler :=
  handler Stderr (Some _FILE_LOG_FORMAT) NOTSET.

Definition file_handler (filename : string) : Handler :=
  handler (LogFileAt filename) (Some _FILE_LOG_FORMAT) NOTSET.

Definition invalid_verbosity (v : nat) : string :=
  ("Invalid verbosity level: " ++ str_of_nat v
   ++ ", error level set to ERROR")%string.

(** The state after the [if args.log_file is not None] statement. *)
Definition after_log_file (args : Namespace) (w : World) : World :=
  match log_file args with
  | PyNone => w
  | PyStr path =>
      match open_failure (expandvars (expanduser path)) with
      | None => add_handler (file_handler (expandvars (expanduser path))) w
      | Some e =>
          add_events (logged "root" "Failed to open log file" w
                      ++ logged "root" (exc_str e) w) w
      end
  | v =>
      add_events (logged "root" "Failed to open log file" w
                  ++ logged "root" (exc_str (not_a_path v)) w) w
  end.

(** The state after the [if args.verbose in ...] statement. *)
Definition after_level (args : Namespace) (w : World) : World :=
  match dict_get _VERBOSITY_LOGLEVEL_DICT (verbose args) with
  | Some level => set_level level w
  | None =>
      add_events (logged "root" (invalid_verbosity (verbose args))
                         (set_level ERROR w))
                 (set_level ERROR w)
  end.

(** The level the table gives a verbosity count, [ERROR] outside it. *)
Definition level_for (v : nat) : Z :=
  match v with
  | 0 => ERROR
  | 1 => WARNING
  | 2 => INFO
  | 3 => DEBUG
  | _ => ERROR
  end.

(** ** Closing the open files *)

(** [len(open_files)] *)
Definition registry_len (r : Registry) : nat :=
  match r with
  | FileRegistry hs => List.length hs
  | FilesDict items => List.length items
  end.

(** The handles a registry holds, in the order in which it gives them:
    for a dictionary, the value of each of its keys. *)
Definition registered (r : Registry) : list File :=
  match r with
  | FileRegistry hs => hs
  | FilesDict items =>
      flat_map (fun key => match getitem key items with
                           | Some fileh => [fileh]
                           | None => []
                           end)
               (keys items)
  end.

Definition File_eqb (f g : File) : bool :=
  String.eqb (filename f) (filename g) && (file_id f =? file_id g)%nat.

(** [d[key]] for a key that is not there: the text of the exception is
    the key between quotes (its [repr], for a key without a quote or a
    backslash). *)
Definition KeyError (key : string) : Exn :=
  exception "KeyError" ("'" ++ key ++ "'")%string.

(** [fileh.close()]: the file is closed and leaves the registry (the
    dictionary is keyed by file name). *)
Definition File_close (fileh : File) : M unit :=
  event (Close fileh) ;;
  w <- get ;;
  let reg :=
    match open_files w with
    | FileRegistry hs =>
        FileRegistry (List.filter (fun g => negb (File_eqb fileh g)) hs)
    | FilesDict items => FilesDict (delitem (filename fileh) items)
    end in
  put (world (root_level w) (root_handlers w) (tables_version w) reg (trace w)).

Definition stderr_write (s : string) : M unit := event (StderrWrite s).

(** [if cond: body] *)
Definition when (cond : bool) (body : M unit) : M unit :=
  if cond then body else ret tt.

(** [_close_open_files(verbose)] *)
Definition _close_open_files (verbose : PyValue) : M unit :=
  w <- get ;;
  let open_files := open_files w in
  let are_open_files := (0 <? registry_len open_files)%nat in
  when (truthy verbose && are_open_files)
       (stderr_write "Closing remaining open files:") ;;
  handlers <-
    (if str_ge (tables_version w) "3.1.0" then
       (* a copy of the open_files.handlers container *)
       match open_files with
       | FileRegistry hs => ret hs
       | FilesDict _ => raise (attribute_error "dict" "handlers")
       end
     else
       (* older versions: the handlers list is built from the keys *)
       match open_files with
       | FilesDict items =>
           let keys := keys items in
           for_list keys (fun key =>
             match getitem key items with
             | Some fileh => ret fileh
             | None => raise (KeyError key)
             end)
       | FileRegistry _ => raise (attribute_error "_FileRegistry" "keys")
       end) ;;
  for_each handlers (fun fileh =>
    when (truthy verbose) (stderr_write (filename fileh ++ "...")%string) ;;
    File_close fileh ;;
    when (truthy verbose) (stderr_write "done")) ;;
  when (truthy verbose && are_open_files) (stderr_write (String LF "")).

End Launcher.

(** ** The events of [_close_open_files] *)

(** The registry has the layout that the version test of
    [_close_open_files] expects. *)
Definition layout_matches (w : World) : bool :=
  match open_files w with
  | FileRegistry _ => str_ge (tables_version w) "3.1.0"
  | FilesDict _ => negb (str_ge (tables_version w) "3.1.0")
  end.

Definition optional_write (cond : bool) (s : string) : list Event :=
  if cond then [StderrWrite s] else [].

(** The events of one turn of the closing loop. *)
Definition closing (verbose : PyValue) (fileh : File) : list Event :=
  optional_write (truthy verbose) (filename fileh ++ "...")%string
  ++ [Close fileh]
  ++ optional_write (truthy verbose) "done".

(** The events of [_close_open_files] on the handles [hs]. *)
Definition close_events (verbose : PyValue) (hs : list File) : list Event :=
  optional_write (truthy verbose && (0 <? List.length hs)%nat)
                 "Closing remaining open files:"
  ++ flat_map (closing verbose) hs
  ++ optional_write (truthy verbose && (0 <? List.length hs)%nat)
                    (String LF "").

(** ** Inputs of the examples *)

Definition permission_denied : Exn :=
  exception "PermissionError" "[Errno 13] Permission denied: '/vt.log'".

Definition a_h5 : File := file_handle "a.h5" 1.
Definition b_h5 : File := file_handle "b.h5" 2.

End Start.

(* ------------------------------------------------------------------ *)
(** * logger.py: the context menu and the keyboard focus *)

Module Console.

Import Logger.

(** [write] called for each text of a list in turn, as happens when
    [sys.stdout] and [sys.stderr] are redirected to the logger. *)
Definition writes
    (movePosition : MoveOperation -> list Paragraph -> nat -> nat)
    (colorAt : list Paragraph -> nat -> QColor)
    (texts : list string) (w : QTextEdit) : QTextEdit :=
  fold_left (fun w text => write movePosition colorAt text w) texts w.

(** The texts [write] lets through. *)
Definition shown (text : string) : bool :=
  negb (str_in text [newline; crlf]).

(** The colour [write] appends a text in, when [current] is the text
    colour on entry. *)
Definition color_for (current : QColor) (text : string) : QColor :=
  if startswith text error_prefix then rgb 255 0 0
  else if startswith text warning_prefix then rgb 243 137 8
  else current.

Definition rendered (current : QColor) (text : string) : Paragraph :=
  paragraph text (color_for current text).

(** A [QAction] of the context menu: its text, the slot of the logger it
    triggers, and whether it is enabled. *)
Record QAction : Type := action {
  action_text : string;
  action_slot : string;
  action_enabled : bool
}.

Definition setEnabled (b : bool) (a : QAction) : QAction :=
  action (action_text a) (action_slot a) b.

(** The attributes [copy_action], [clear_action] and [select_action],
    which exist once a context menu has been made. *)
Record MenuActions : Type := menu_actions {
  copy_action : QAction;
  clear_action : QAction;
  select_action : QAction
}.

(** [QFrame.Panel | QFrame.Plain] *)
Definition Panel : Z := 2.
Definition Plain : Z := 16.

(** The logger beyond its text: whether the text cursor has a
    selection, the actions of the last context menu, the frame, and
    the signals the logger has emitted, oldest first. *)
Record LoggerState : Type := logger_state {
  edit : QTextEdit;
  hasSelection : bool;
  actions : option MenuActions;
  lineWidth : Z;
  frameStyle : Z;
  emitted : list string
}.

Definition set_actions (a : option MenuActions) (l : LoggerState)
  : LoggerState :=
  logger_state (edit l) (hasSelection l) a (lineWidth l) (frameStyle l)
               (emitted l).

(** [self.emit(QtCore.SIGNAL(signal), ())] *)
Definition emit (signal : string) (l : LoggerState) : LoggerState :=
  logger_state (edit l) (hasSelection l) (actions l) (lineWidth l)
               (frameStyle l) (emitted l ++ [signal]).

Definition setLineWidth (n : Z) (l : LoggerState) : LoggerState :=
  logger_state (edit l) (hasSelection l) (actions l) n (frameStyle l)
               (emitted l).

Definition setFrameStyle (style : Z) (l : LoggerState) : LoggerState :=
  logger_state (edit l) (hasSelection l) (actions l) (lineWidth l) style
               (emitted l).

Section Menu.

(** [Logger.__tr(source, comment)]: the translation of [source] in the
    context ['Logger']. *)
Variable translate : string -> string -> string.

(** [QTextDocument.isEmpty()], which Qt decides from what the document
    holds. *)
Variable isEmpty : list Paragraph -> bool.

(** [Logger.updateEditMenu(self)].  The three actions are attributes
    that [createCustomContextMenu] sets: without them the first access
    raises [AttributeError]. *)
Definition updateEditMenu (self : LoggerState) : Outcome LoggerState :=
  match actions self with
  | None => Raised (attribute_error "Logger" "copy_action")
  | Some acts =>
      (* Copy is enabled when there is some selected text *)
      let copy :=
        if hasSelection self then setEnabled true (copy_action acts)
        else setEnabled false (copy_action acts) in
      (* Clear All and Select All are enabled when there is some text *)
      let document := document (edit self) in
      let '(clear, select) :=
        if isEmpty document then
          (setEnabled false (clear_action acts),
           setEnabled false (select_action acts))
        else
          (setEnabled true (clear_action acts),
           setEnabled true (select_action acts)) in
      Returned (set_actions (Some (menu_actions copy clear select)) self)
  end.

(** [Logger.disableCopyNodeAction(self)] *)
Definition disableCopyNodeAction (self : LoggerState) : LoggerState :=
  emit "disableCopyNodeAction()" self.

(** [Logger.updateCopyNodeAction(self)] *)
Definition updateCopyNodeAction (self : LoggerState) : LoggerState :=
  emit "updateCopyNodeAction()" self.

(** [Logger.createCustomContextMenu(self, pos)].  The menu is made with
    its three actions, enabled as [QMenu.addAction] makes them, and
    popped up; [popup] emits [aboutToShow()], whose slots run in the
    order they were connected: [updateEditMenu], then
    [disableCopyNodeAction].  Where the menu appears is not modelled. *)
Definition createCustomContextMenu (self : LoggerState) : Outcome LoggerState :=
  let copy_action :=
    action (translate "&Copy" "Logger menu entry") "copy()" true in
  let clear_action :=
    action (translate "Cl&ear All" "Logger menu entry") "clear()" true in
  let select_action :=
    action (translate "Select &All" "Logger menu entry") "selectAll()" true in
  let self :=
    set_actions (Some (menu_actions copy_action clear_action select_action))
                self in
  match updateEditMenu self with
  | Returned self => Returned (disableCopyNodeAction self)
  | SystemExit status => SystemExit status
  | Raised e => Raised e
  end.

End Menu.

(** [Logger.focusInEvent(self, event)].  The palette the method colours
    is the copy [self.palette()] returns, so the widget keeps its own;
    what [QTextEdit.focusInEvent] then does with the event is Qt's and
    is not modelled. *)
Definition focusInEvent (self : LoggerState) : LoggerState :=
  let self := disableCopyNodeAction self in
  let self := setLineWidth 2 self in
  setFrameStyle (Z.lor Panel Plain) self.

(** [Logger.focusOutEvent(self, event)] *)
Definition focusOutEvent (self : LoggerState) : LoggerState :=
  let self := updateCopyNodeAction self in
  let self := setLineWidth 0 self in
  setFrameStyle (Z.lor Panel Plain) self.

(** The focus events the widget receives. *)
Inductive FocusEvent : Type := FocusIn | FocusOut.

Definition focusEvent (self : LoggerState) (e : FocusEvent) : LoggerState :=
  match e with
  | FocusIn => focusInEvent self
  | FocusOut => focusOutEvent self
  end.

(** The signal a focus event makes the logger emit. *)
Definition focus_signal (e : FocusEvent) : string :=
  match e with
  | FocusIn => "disableCopyNodeAction()"
  | FocusOut => "updateCopyNodeAction()"
  end.

End Console.

(* ------------------------------------------------------------------ *)
(** * start.py: the application object, the locale and the exit hook *)

Module Startup.

Import Start.

(** The categories that [locale.LC_ALL] stands for. *)
Inductive Category : Type :=
| LC_CTYPE | LC_COLLATE | LC_TIME | LC_MONETARY | LC_MESSAGES | LC_NUMERIC.

Definition Category_eqb (c d : Category) : bool :=
  match c, d with
  | LC_CTYPE, LC_CTYPE | LC_COLLATE, LC_COLLATE | LC_TIME, LC_TIME
  | LC_MONETARY, LC_MONETARY | LC_MESSAGES, LC_MESSAGES
  | LC_NUMERIC, LC_NUMERIC => true
  | _, _ => false
  end.

(** A [QTranslator]: the translation file it has loaded, if any. *)
Record QTranslator : Type := translator { translation : option string }.

(** The [QApplication]: its credentials and its translators, in the
    order they were installed. *)
Record QApplication : Type := application {
  organizationDomain : string;
  organizationName : string;
  applicationName : string;
  applicationVersion : string;
  translators : list QTranslator
}.

(** The locale of the process, by category, and the application. *)
Record Process : Type := process {
  locale : Category -> string;
  app : QApplication
}.

Definition installTranslator (t : QTranslator) (a : QApplication)
  : QApplication :=
  application (organizationDomain a) (organizationName a)
              (applicationName a) (applicationVersion a)
              (translators a ++ [t]).

(** [locale.setlocale(category, name)] for one category and a locale
    that exists. *)
Definition setlocale (category : Category) (name : string)
    (l : Category -> string) : Category -> string :=
  fun c => if Category_eqb category c then name else l c.

Section Application.

(** The machine: [vtconfig.getVersion()]; the locale of each category
    that [setlocale(LC_ALL, '')] selects from the user's environment,
    none when the environment names a locale the system has not; the
    name of [QLocale.system()]; the file [QTranslator.load] finds for a
    file name and a directory, if any; the folder [_I18N_PATH]. *)
Variable getVersion : string.
Variable user_locale : option (Category -> string).
Variable system_locale_name : string.
Variable load : string -> string -> option string.
Variable _I18N_PATH : string.

(** [_set_credentials(app)] *)
Definition _set_credentials (app : QApplication) : QApplication :=
  application "vitables.org" "ViTables" "ViTables" getVersion
              (translators app).

(** [locale.setlocale(locale.LC_ALL, '')] *)
Definition setlocale_all_default (l : Category -> string)
  : Outcome (Category -> string) :=
  match user_locale with
  | Some u => Returned u
  | None => Raised (exception "locale.Error" "unsupported locale setting")
  end.

(** [_set_locale(app)] *)
Definition _set_locale (p : Process) : Outcome (QTranslator * Process) :=
  match setlocale_all_default (locale p) with
  | Returned l =>
      let l := setlocale LC_NUMERIC "C" l in
      let locale_name := system_locale_name in
      match load ("vitables_" ++ locale_name)%string _I18N_PATH with
      | Some file =>
          let translator := translator (Some file) in
          Returned (translator,
                    process l (installTranslator translator (app p)))
      | None =>
          let translator := translator None in
          Returned (translator, process l (app p))
      end
  | SystemExit status => SystemExit status
  | Raised e => Raised e
  end.

End Application.

(** ** The script: [atexit.register(_close_open_files, False)], then
    [gui()] *)

Section Script.

(** What [gui] does after the version check: the Qt application, the
    command line, the logger, the main window and the event loop. *)
Variable gui_after_check : M unit.

(** [gui()] *)
Definition gui : M unit :=
  _check_versions ;;
  gui_after_check.

(** The script: however [gui] ends, the interpreter then calls the
    registered function, [_close_open_files(False)].  The result is how
    [gui] ended, how the registered function ended, and the state the
    two calls leave; what the interpreter itself prints for a
    [SystemExit] or an exception is not part of it. *)
Definition main (w : World) : Outcome unit * Outcome unit * World :=
  let '(program, w1) := gui w in
  let '(cleanup, w2) := _close_open_files (PyBool false) w1 in
  (program, cleanup, w2).

End Script.

End Startup.

(* ------------------------------------------------------------------ *)
(** * Reading a command line and a trace *)

Module Observations.

(** The token of a [-v] flag written by itself. *)
Definition verbose_flag : Argparse.Token :=
  Argparse.Opt (Some Argparse.Verbose, "-v", None).

(** The files closed in a list of events, in the order they were
    closed. *)
Definition closed_files (evs : list Event) : list File :=
  flat_map (fun e => match e with Close f => [f] | _ => [] end) evs.

(** What a list of events has written to stderr. *)
Definition stderr_text (evs : list Event) : string :=
  join (flat_map (fun e => match e with StderrWrite s => [s] | _ => [] end)
                 evs).

End Observations.

(* ------------------------------------------------------------------ *)
(** * Properties of strings *)

Lemma startswith_cons c p d text :
  startswith (String d text) (String c p) = Ascii.eqb c d && startswith text p.
Proof. reflexivity. Qed.

Lemma startswith_empty c p : startswith "" (String c p) = false.
Proof. reflexivity. Qed.

Lemma startswith_nil text : startswith text "" = true.
Proof. now destruct text. Qed.

(* ------------------------------------------------------------------ *)
(** * Properties of the console widget *)

Module LoggerSpec.

Import Logger.

Section Widget.

Variable movePosition : MoveOperation -> list Paragraph -> nat -> nat.
Variable colorAt : list Paragraph -> nat -> QColor.
Variable elements : list string.

Lemma str_in_newlines text :
  str_in text [newline; crlf] = true <-> text = newline \/ text = crlf.
Proof.
  unfold str_in; simpl. rewrite !orb_true_iff, !String.eqb_eq.
  intuition discriminate.
Qed.

Lemma startswith_not_newline text p c :
  startswith text (String LF (String c p)) = true ->
  str_in text [newline; crlf] = false.
Proof.
  intros H. destruct (str_in text [newline; crlf]) eqn:E; [|reflexivity].
  apply str_in_newlines in E. destruct E as [-> | ->]; discriminate H.
Qed.

Lemma write_appends text w :
  str_in text [newline; crlf] = false ->
  exists c,
    document (write movePosition colorAt text w)
    = document w ++ [paragraph text c].
Proof.
  intros H. unfold write. rewrite H.
  destruct (startswith text error_prefix);
    [|destruct (startswith text warning_prefix)]; simpl; eauto.
Qed.

Lemma inserted_plain text c :
  mightBeRichText elements text = false ->
  inserted elements (paragraph text c) = PlainText text c.
Proof. intros H. unfold inserted. simpl. now rewrite H. Qed.

Lemma error_not_warning text :
  startswith text warning_prefix = true ->
  startswith text error_prefix = false.
Proof.
  intros H. destruct (startswith text error_prefix) eqn:E; [|reflexivity].
  exfalso. unfold error_prefix, warning_prefix in E, H.
  destruct text as [|a [|b t]]; try discriminate;
    rewrite !startswith_cons in E, H.
  - rewrite startswith_empty in E. now rewrite andb_false_r in E.
  - apply andb_prop in E, H.
    destruct E as [_ E], H as [_ H]. apply andb_prop in E, H.
    destruct E as [E _], H as [H _]. apply Ascii.eqb_eq in E, H.
    congruence.
Qed.

(** C6, amended: for a text that Qt does not take for rich text (and a
    console without selected text, as [QTextEdit] is here), the widget
    shows what it showed and then the text as plain text: in red
    when it starts with the error prefix, in RGB(243, 137, 8) when it
    starts with the warning prefix, and otherwise (when it is appended
    at all) in the text colour that was current when [write] was
    entered.  The cursor is then at the end of its line in the new
    document. *)
Theorem write_color_rules (text : string) (w : QTextEdit) :
  mightBeRichText elements text = false ->
  (startswith text error_prefix = true ->
   map (inserted elements) (document (write movePosition colorAt text w))
   = map (inserted elements) (document w) ++ [PlainText text (rgb 255 0 0)])
  /\ (startswith text warning_prefix = true ->
      map (inserted elements) (document (write movePosition colorAt text w))
      = map (inserted elements) (document w) ++ [PlainText text (rgb 243 137 8)])
  /\ (startswith text error_prefix = false ->
      startswith text warning_prefix = false ->
      str_in text [newline; crlf] = false ->
      map (inserted elements) (document (write movePosition colorAt text w))
      = map (inserted elements) (document w) ++ [PlainText text (textColor w)])
  /\ (str_in text [newline; crlf] = false ->
      cursor (write movePosition colorAt text w)
      = movePosition EndOfLine
          (document (write movePosition colorAt text w)) (cursor w)).
Proof.
  intros Hplain. repeat split.
  - intros H. unfold write.
    rewrite (startswith_not_newline text _ _ H), H. simpl.
    now rewrite map_app, <- (inserted_plain text _ Hplain).
  - intros H. unfold write.
    rewrite (startswith_not_newline text _ _ H), H,
      (error_not_warning text H). simpl.
    now rewrite map_app, <- (inserted_plain text _ Hplain).
  - intros He Hw Hn. unfold write. rewrite Hn, He, Hw. simpl.
    now rewrite map_app, <- (inserted_plain text _ Hplain).
  - intros Hn. unfold write. rewrite Hn.
    destruct (startswith text error_prefix);
      [|destruct (startswith text warning_prefix)]; reflexivity.
Qed.

(** C8: [write] with exactly ["\n"] or ["\r\n"] changes nothing (document,
    cursor and current colour are those on entry); every other string is
    appended as a new last paragraph. *)
Theorem write_newline_noop (text : string) (w : QTextEdit) :
  (text = newline \/ text = crlf -> write movePosition colorAt text w = w)
  /\ (text <> newline -> text <> crlf ->
      exists c,
        document (write movePosition colorAt text w)
        = document w ++ [paragraph text c]).
Proof.
  split.
  - intros H. apply str_in_newlines in H. unfold write. now rewrite H.
  - intros H1 H2. apply write_appends.
    destruct (str_in text [newline; crlf]) eqn:E; [|reflexivity].
    apply str_in_newlines in E. tauto.
Qed.

(** C9: every call of [write] leaves the current text colour as it was
    on entry, whatever colour the text was appended in and wherever the
    cursor went. *)
Theorem write_restores_color (text : string) (w : QTextEdit) :
  textColor (write movePosition colorAt text w) = textColor w.
Proof.
  unfold write. destruct (str_in text [newline; crlf]); reflexivity.
Qed.

End Widget.

Lemma write_color_rules_witness :
  map (inserted html_elements)
    (document (write at_end last_color (String LF "Error: no such node")
                 (mkTextEdit [paragraph "Hola mundo!" (rgb 0 0 0)] 1
                             (rgb 0 0 0))))
  = [PlainText "Hola mundo!" (rgb 0 0 0);
     PlainText (String LF "Error: no such node") (rgb 255 0 0)].
Proof.
  apply (write_color_rules at_end last_color html_elements
           (String LF "Error: no such node")
           (mkTextEdit [paragraph "Hola mundo!" (rgb 0 0 0)] 1 (rgb 0 0 0))
           eq_refl).
  reflexivity.
Defined.

(** C6 as it is stated fails: an error message with markup in its first
    line is taken for rich text, and the widget shows it as HTML with
    the colours of the markup, not in red. *)
Lemma write_error_markup_not_red :
  startswith (String LF "Error: <b>x</b>") error_prefix = true
  /\ map (inserted html_elements)
       (document (write at_end last_color (String LF "Error: <b>x</b>")
                    (mkTextEdit [] 0 (rgb 0 0 0))))
     = [Html (String LF "Error: <b>x</b>")]
  /\ map (inserted html_elements)
       (document (write at_end last_color (String LF "Error: <b>x</b>")
                    (mkTextEdit [] 0 (rgb 0 0 0))))
     <> [PlainText (String LF "Error: <b>x</b>") (rgb 255 0 0)].
Proof. repeat split. discriminate. Qed.

(** ** The demonstration at the end of [logger.py] *)

Example demo_console :
  fold_left (fun w text => write at_end last_color text w) demo
            (mkTextEdit [] 0 (rgb 0 0 0))
  = mkTextEdit
      [paragraph "Hola mundo!" (rgb 0 0 0);
       paragraph (String LF "Error: El viatger del crepuscle") (rgb 255 0 0);
       paragraph (String LF "Warning: Adolf Piquer") (rgb 243 137 8);
       paragraph "Adéu!" (rgb 0 0 0)]
      4 (rgb 0 0 0).
Proof. reflexivity. Qed.

(** A lone carriage return, or a blank, is appended. *)
Example write_carriage_return w :
  document (write at_end last_color (String CR "") w)
  = document w ++ [paragraph (String CR "") (textColor w)].
Proof. reflexivity. Qed.

Example write_blank w :
  document (write at_end last_color " " w)
  = document w ++ [paragraph " " (textColor w)].
Proof. reflexivity. Qed.

End LoggerSpec.

(* ------------------------------------------------------------------ *)
(** * Properties of the command-line parser *)

Module ArgparseSpec.

Import Argparse.

Lemma given_from_acc a steps cur :
  given_from a steps cur
  = match given_from a steps None with Some v => Some v | None => cur end.
Proof.
  revert cur. induction steps as [|s rest IH]; intros cur; [reflexivity|].
  destruct s as [b [|v [|v' args]]| | |]; simpl; try apply IH.
  destruct (Action_eqb a b); [|apply IH].
  rewrite (IH (Some v)). now destruct (given_from a rest None).
Qed.

Lemma given_from_other a b args rest cur :
  Action_eqb a b = false ->
  given_from a (Take b args :: rest) cur = given_from a rest cur.
Proof.
  intros H. destruct args as [|v [|v' args]]; simpl; try reflexivity.
  now rewrite H.
Qed.

(** ** What [run] leaves in the namespace *)

Lemma get_values_one a v :
  get_values a [v]
  = if String.eqb v "--" then inr (PyList [])
    else if check_value a v then inr (PyStr v)
    else inl (InvalidChoice a v).
Proof.
  unfold get_values. simpl. now destruct (String.eqb v "--").
Qed.

Lemma get_values_stored a v value :
  get_values a [v] = inr value -> value = stored v.
Proof.
  rewrite get_values_one. unfold stored.
  destruct (String.eqb v "--"); [now intros [= <-]|].
  destruct (check_value a v); [now intros [= <-]|discriminate].
Qed.

Lemma take_action_store a args ns ns' :
  take_action a args ns = inr ns' ->
  (a = Verbose /\ ns' = set_verbose (S (verbose ns)) ns)
  \/ (exists v, args = [v] /\ get_values a [v] = inr (stored v)
               /\ ns' = store a (stored v) ns
               /\ (a = Mode \/ a = Dblist \/ a = LogFile)).
Proof.
  destruct a; simpl; try discriminate.
  - destruct args as [|v [|? ?]]; try discriminate.
    destruct (get_values Mode [v]) as [e|value] eqn:E; [discriminate|].
    intros [= <-]. right. exists v.
    rewrite <- (get_values_stored _ _ _ E). tauto.
  - destruct args as [|v [|? ?]]; try discriminate.
    destruct (get_values Dblist [v]) as [e|value] eqn:E; [discriminate|].
    intros [= <-]. right. exists v.
    rewrite <- (get_values_stored _ _ _ E). tauto.
  - destruct args as [|v [|? ?]]; try discriminate.
    destruct (get_values LogFile [v]) as [e|value] eqn:E; [discriminate|].
    intros [= <-]. right. exists v.
    rewrite <- (get_values_stored _ _ _ E). tauto.
  - intros [= <-]. now left.
Qed.

(** After a run, [dblist] is what the last [-d/--dblist] stored. *)
Lemma run_dblist steps : forall ns extras ns',
  run steps ns extras = inr ns' ->
  dblist ns'
  = match given Dblist steps with Some v => stored v | None => dblist ns end.
Proof.
  unfold given.
  induction steps as [|s rest IH]; intros ns extras ns' H; simpl in H.
  - destruct extras; [|discriminate]. now injection H as <-.
  - destruct s as [a args|args|x|e]; try discriminate.
    + destruct (take_action a args ns) as [?|ns1] eqn:E; [discriminate|].
      apply IH in H. rewrite H.
      apply take_action_store in E.
      destruct E as [[-> ->]|(v & -> & _ & -> & Ha)].
      * now rewrite given_from_other.
      * destruct Ha as [->|[->| ->]];
          try (now rewrite given_from_other).
        simpl. rewrite (given_from_acc Dblist rest (Some v)).
        now destruct (given_from Dblist rest None).
    + now apply IH in H.
    + now apply IH in H.
Qed.

Lemma run_keeps_dblist steps : forall ns extras ns',
  run steps ns extras = inr ns' ->
  (forall args, ~ In (Take Dblist args) steps) ->
  dblist ns' = dblist ns.
Proof.
  induction steps as [|s rest IH]; intros ns extras ns' H Hno; simpl in H.
  - destruct extras; [|discriminate]. now injection H as <-.
  - assert (Hrest : forall args, ~ In (Take Dblist args) rest)
      by (intros args Hin; apply (Hno args); now right).
    destruct s as [a args|args|x|e]; try discriminate.
    + destruct (take_action a args ns) as [?|ns1] eqn:E; [discriminate|].
      rewrite (IH _ _ _ H Hrest).
      apply take_action_store in E.
      destruct E as [[-> ->]|(v & -> & _ & -> & Ha)]; [reflexivity|].
      destruct Ha as [->|[->| ->]]; try reflexivity.
      exfalso. apply (Hno [v]). now left.
    + now rewrite (IH _ _ _ H Hrest).
    + now rewrite (IH _ _ _ H Hrest).
Qed.

Lemma run_keeps_mode steps : forall ns extras ns',
  run steps ns extras = inr ns' ->
  (forall args, ~ In (Take Mode args) steps) ->
  mode ns' = mode ns.
Proof.
  induction steps as [|s rest IH]; intros ns extras ns' H Hno; simpl in H.
  - destruct extras; [|discriminate]. now injection H as <-.
  - assert (Hrest : forall args, ~ In (Take Mode args) rest)
      by (intros args Hin; apply (Hno args); now right).
    destruct s as [a args|args|x|e]; try discriminate.
    + destruct (take_action a args ns) as [?|ns1] eqn:E; [discriminate|].
      rewrite (IH _ _ _ H Hrest).
      apply take_action_store in E.
      destruct E as [[-> ->]|(v & -> & _ & -> & Ha)]; [reflexivity|].
      destruct Ha as [->|[->| ->]]; try reflexivity.
      exfalso. apply (Hno [v]). now left.
    + now rewrite (IH _ _ _ H Hrest).
    + now rewrite (IH _ _ _ H Hrest).
Qed.

Lemma last_cons_default {A} (l : list A) : forall a d,
  List.last (a :: l) d = List.last l a.
Proof.
  induction l as [|b l IH]; intros a d; [reflexivity|].
  change (List.last (a :: b :: l) d) with (List.last (b :: l) d).
  now rewrite !IH.
Qed.

(** After a run, [h5file] is what the positional action was last taken
    with. *)
Lemma run_h5file steps : forall ns extras ns',
  run steps ns extras = inr ns' ->
  h5file ns' = List.last (positionals steps) (h5file ns).
Proof.
  induction steps as [|s rest IH]; intros ns extras ns' H; simpl in H.
  - destruct extras; [|discriminate]. now injection H as <-.
  - destruct s as [a args|args|x|e]; try discriminate.
    + destruct (take_action a args ns) as [?|ns1] eqn:E; [discriminate|].
      rewrite (IH _ _ _ H). simpl positionals.
      apply take_action_store in E.
      destruct E as [[-> ->]|(v & -> & _ & -> & Ha)]; [reflexivity|].
      destruct Ha as [->|[->| ->]]; reflexivity.
    + rewrite (IH _ _ _ H). simpl positionals.
      now rewrite last_cons_default.
    + now rewrite (IH _ _ _ H).
Qed.

Lemma run_no_fail steps : forall ns extras ns',
  run steps ns extras = inr ns' -> existsb is_fail steps = false.
Proof.
  induction steps as [|s rest IH]; intros ns extras ns' H; [reflexivity|].
  simpl in H. destruct s as [a args|args|x|e]; try discriminate; simpl.
  - destruct (take_action a args ns); [discriminate|]. eauto.
  - eauto.
  - eauto.
Qed.

(** ** The positional action is taken once *)

Lemma positionals_app s1 s2 :
  positionals (s1 ++ s2) = positionals s1 ++ positionals s2.
Proof.
  induction s1 as [|s s1 IH]; [reflexivity|].
  destruct s; simpl; now rewrite IH.
Qed.

Lemma positionals_takes tuples : positionals (takes tuples) = [].
Proof. induction tuples as [|t tuples IH]; [reflexivity|exact IH]. Qed.

Lemma no_fail_takes tuples : existsb is_fail (takes tuples) = false.
Proof. induction tuples as [|t tuples IH]; [reflexivity|exact IH]. Qed.

Ltac positional_steps :=
  repeat (rewrite ?existsb_app, ?positionals_app, ?positionals_takes,
            ?no_fail_takes, ?length_app in *; simpl in *).

Lemma consume_positional_once n : forall ts pos,
  List.length ts <= n ->
  existsb is_fail (consume ts pos) = false ->
  List.length (positionals (consume ts pos)) = expected pos.
Proof.
  induction n as [|n IH]; intros ts pos Hlen Hok.
  - destruct ts; [|simpl in Hlen; lia]. now destruct pos.
  - destruct ts as [|t rest]; [now destruct pos|].
    simpl in Hlen. assert (Hrest : List.length rest <= n) by lia.
    destruct t as [s| |[[o option_string] explicit_arg]].
    + destruct pos; simpl in *; try apply (IH rest (Collecting _) Hrest Hok).
      apply (IH rest Consumed Hrest Hok).
    + destruct pos; simpl in *; try apply (IH rest (Collecting _) Hrest Hok).
      apply (IH rest Consumed Hrest Hok).
    + assert (Hnext : forall rest' pos',
                 List.length rest' <= n ->
                 existsb is_fail (consume rest' pos') = false ->
                 List.length (positionals (consume rest' pos')) = expected pos')
        by (intros; now apply IH).
      clear IH.
      destruct o as [a|];
        [destruct explicit_arg as [x|];
         [destruct (explicit_loop a (negb (second_is_dash option_string)) x)
            as [e|[tuples [a'|]]] eqn:E|]|];
        destruct pos; simpl in Hok |- *; try rewrite E in *;
        repeat match goal with
          | H : context [match nargs ?a with _ => _ end] |- _ =>
              destruct (nargs a)
          | H : context [match rest with _ => _ end] |- _ =>
              destruct rest as [|[v| |t'] rest']
          end;
        positional_steps; try discriminate;
        try (rewrite Hnext; [reflexivity|simpl in *; lia|assumption]).
Qed.

(** A run that returns took the positional action once, and [h5file] is
    what it was taken with. *)
Lemma run_positionals ts ns ns' :
  run (consume ts Pending) ns [] = inr ns' ->
  positionals (consume ts Pending) = [h5file ns'].
Proof.
  intros H.
  pose proof (run_h5file _ _ _ _ H) as Hlast.
  pose proof (consume_positional_once (List.length ts) ts Pending (le_n _)
                (run_no_fail _ _ _ _ H)) as Hone.
  destruct (positionals (consume ts Pending)) as [|p [|q ps]];
    try discriminate.
  simpl in Hlast. now rewrite Hlast.
Qed.

(** ** The paths the positional action takes *)

Lemma run_no_extra steps : forall ns extras ns',
  run steps ns extras = inr ns' ->
  extras = [] /\ existsb is_extra steps = false.
Proof.
  induction steps as [|s rest IH]; intros ns extras ns' H; simpl in H.
  - destruct extras; [now split|discriminate].
  - destruct s as [a args|args|x|e]; try discriminate; simpl.
    + destruct (take_action a args ns); [discriminate|]. eauto.
    + eauto.
    + apply IH in H. destruct H as [H _]. now destruct extras.
Qed.

Lemma no_extra_takes tuples : existsb is_extra (takes tuples) = false.
Proof. induction tuples as [|t tuples IH]; [reflexivity|exact IH]. Qed.

Lemma token_paths_args l : token_paths false (map Arg l) = l.
Proof. induction l as [|s l IH]; [reflexivity|]. simpl. now rewrite IH. Qed.

Lemma classify_paths argv : forall b ts,
  classify argv = inr ts -> paths_from b argv = token_paths b ts.
Proof.
  induction argv as [|s rest IH]; intros b ts H; simpl in H.
  - now injection H as <-.
  - simpl. destruct (String.eqb s "--").
    + injection H as <-. simpl. now rewrite token_paths_args.
    + destruct (parse_optional s) as [e|o]; [discriminate|].
      destruct (classify rest) as [e|ts'] eqn:E; [discriminate|].
      injection H as <-.
      destruct b, o as [t|]; simpl; try (now apply IH).
      f_equal. now apply IH.
Qed.

Ltac path_steps :=
  repeat (rewrite ?existsb_app, ?positionals_app, ?positionals_takes,
            ?no_fail_takes, ?no_extra_takes, ?app_nil_r in *; simpl in *).

Lemma consume_option o option_string explicit_arg rest pos :
  (exists tuples rest',
     consume (Opt (o, option_string, explicit_arg) :: rest) pos
     = match pos with Collecting args => [TakePositional args] | _ => [] end
       ++ takes tuples
       ++ consume rest' (match pos with Collecting _ => Consumed | _ => pos end)
     /\ token_paths (wants_argument (o, option_string, explicit_arg)) rest
        = token_paths false rest'
     /\ List.length rest' <= List.length rest)
  \/ existsb is_fail
       (consume (Opt (o, option_string, explicit_arg) :: rest) pos) = true
  \/ existsb is_extra
       (consume (Opt (o, option_string, explicit_arg) :: rest) pos) = true.
Proof.
  destruct o as [a|].
  - destruct explicit_arg as [x|].
    + simpl. destruct (explicit_loop a (negb (second_is_dash option_string)) x)
        as [e|[tuples [a'|]]] eqn:E.
      * right. left. rewrite existsb_app. simpl. now rewrite orb_true_r.
      * destruct (nargs a') eqn:Ea'.
        -- left. exists (tuples ++ [(a', [])]), rest. auto.
        -- destruct rest as [|[v| |t'] rest'];
             try (right; left; rewrite existsb_app; simpl;
                  now rewrite orb_true_r).
           left. exists (tuples ++ [(a', [v])]), rest'. simpl. auto.
      * left. exists tuples, rest. auto.
    + simpl. destruct (nargs a) eqn:Ea.
      * left. exists [(a, [])], rest. auto.
      * destruct rest as [|[v| |t'] rest'];
          try (right; left; rewrite existsb_app; simpl;
               now rewrite orb_true_r).
        left. exists [(a, [v])], rest'. simpl. auto.
  - right. right. simpl. rewrite existsb_app. simpl. now rewrite orb_true_r.
Qed.

Lemma consume_paths n : forall ts pos,
  List.length ts <= n ->
  existsb is_fail (consume ts pos) = false ->
  existsb is_extra (consume ts pos) = false ->
  positionals (consume ts pos)
  = match pos with
    | Pending => [token_paths false ts]
    | Collecting args => [args ++ token_paths false ts]
    | Consumed => []
    end
  /\ (pos = Consumed -> token_paths false ts = []).
Proof.
  induction n as [|n IH]; intros ts pos Hlen Hfail Hextra.
  - destruct ts; [|simpl in Hlen; lia].
    destruct pos; simpl; rewrite ?app_nil_r;
      (split; [reflexivity|intros; try discriminate; reflexivity]).
  - destruct ts as [|t rest].
    { destruct pos; simpl; rewrite ?app_nil_r;
        (split; [reflexivity|intros; try discriminate; reflexivity]). }
    simpl in Hlen. assert (Hrest : List.length rest <= n) by lia.
    destruct t as [s| |[[o option_string] explicit_arg]].
    + destruct pos as [|args|]; simpl in *.
      * destruct (IH rest (Collecting [s]) Hrest Hfail Hextra) as [-> _].
        split; [reflexivity|discriminate].
      * destruct (IH rest (Collecting (args ++ [s])) Hrest Hfail Hextra)
          as [-> _].
        rewrite <- app_assoc. split; [reflexivity|discriminate].
      * discriminate Hextra.
    + destruct pos as [|args|]; simpl in *.
      * destruct (IH rest (Collecting []) Hrest Hfail Hextra) as [-> _].
        split; [reflexivity|discriminate].
      * destruct (IH rest (Collecting args) Hrest Hfail Hextra) as [-> _].
        split; [reflexivity|discriminate].
      * discriminate Hextra.
    + destruct (consume_option o option_string explicit_arg rest pos)
        as [(tuples & rest' & Heq & Hpaths & Hlen')|[H|H]];
        [|rewrite H in Hfail; discriminate|rewrite H in Hextra; discriminate].
      rewrite Heq in Hfail, Hextra |- *. clear Heq.
      change (token_paths false (Opt (o, option_string, explicit_arg) :: rest))
        with (token_paths (wants_argument (o, option_string, explicit_arg))
                          rest).
      rewrite Hpaths.
      assert (Hrest' : List.length rest' <= n) by lia.
      destruct pos as [|args|]; path_steps.
      * apply (IH rest' Pending Hrest' Hfail Hextra).
      * destruct (IH rest' Consumed Hrest' Hfail Hextra) as [-> ->];
          [|reflexivity].
        rewrite app_nil_r. split; [reflexivity|discriminate].
      * apply (IH rest' Consumed Hrest' Hfail Hextra).
Qed.

(** A run that returns leaves in [h5file] the file paths of the command
    line, as given. *)
Lemma run_paths_given argv ts ns0 ns :
  classify argv = inr ts ->
  run (consume ts Pending) ns0 [] = inr ns ->
  h5file ns = paths_given argv.
Proof.
  intros Hc H. unfold paths_given. rewrite (classify_paths _ _ _ Hc).
  rewrite (run_h5file _ _ _ _ H).
  destruct (run_no_extra _ _ _ _ H) as [_ Hextra].
  destruct (consume_paths (List.length ts) ts Pending (le_n _)
              (run_no_fail _ _ _ _ H) Hextra) as [-> _].
  reflexivity.
Qed.

(** ** Command lines without options *)

(** An argument string that does not start with a dash is no option. *)
Lemma parse_optional_no_dash s :
  startswith s "-" = false -> parse_optional s = inr None.
Proof.
  destruct s as [|c s]; [reflexivity|]. intros H.
  rewrite startswith_cons, startswith_nil, andb_true_r in H.
  unfold parse_optional, dash. now rewrite Ascii.eqb_sym, H.
Qed.

Lemma no_dash_not_separator s :
  startswith s "-" = false -> String.eqb s "--" = false.
Proof.
  intros H.
  destruct (String.eqb_spec s "--") as [->|]; [discriminate|reflexivity].
Qed.

Lemma classify_cons_no_dash s rest :
  startswith s "-" = false ->
  classify (s :: rest)
  = match classify rest with
    | inl e => inl e
    | inr ts => inr (Arg s :: ts)
    end.
Proof.
  intros Hs. simpl.
  now rewrite (no_dash_not_separator s Hs), (parse_optional_no_dash s Hs).
Qed.

Lemma classify_no_dash argv :
  Forall (fun s => startswith s "-" = false) argv ->
  classify argv = inr (map Arg argv).
Proof.
  induction 1 as [|s argv Hs _ IH]; [reflexivity|].
  simpl. now rewrite (no_dash_not_separator s Hs),
           (parse_optional_no_dash s Hs), IH.
Qed.

Lemma consume_args l : forall args,
  consume (map Arg l) (Collecting args) = [TakePositional (args ++ l)].
Proof.
  induction l as [|s l IH]; intros args; simpl.
  - now rewrite app_nil_r.
  - now rewrite IH, <- app_assoc.
Qed.

(** A command line of file paths only is returned as [h5file], with the
    defaults for everything else. *)
Lemma parse_args_paths argv :
  Forall (fun s => startswith s "-" = false) argv ->
  parse_args argv = inr (namespace "a" "" PyNone 0 argv).
Proof.
  intros H. unfold parse_args, steps_of.
  rewrite (classify_no_dash argv H).
  destruct argv as [|s argv]; [reflexivity|].
  simpl. now rewrite consume_args.
Qed.

(** ** The parser on concrete command lines *)

Example parse_verbose_cluster :
  parse_args ["-vvv"] = inr (namespace "a" "" PyNone 3 []).
Proof. reflexivity. Qed.

Example parse_attached_arguments :
  parse_args ["--dblist=files.txt"; "-mr"; "--log=vt.log"; "a.h5"]
  = inr (namespace "r" "files.txt" "vt.log" 0 ["a.h5"]).
Proof. reflexivity. Qed.

Example parse_after_double_dash :
  parse_args ["-v"; "--"; "-a.h5"; "--mode"]
  = inr (namespace "a" "" PyNone 1 ["-a.h5"; "--mode"]).
Proof. reflexivity. Qed.

Example parse_paths_around_an_option :
  parse_args ["a.h5"; "-v"; "b.h5"]
  = inl (ParserError (UnrecognizedArguments ["b.h5"])).
Proof. reflexivity. Qed.

Example parse_invalid_mode :
  parse_args ["-m"; "w"] = inl (ParserError (InvalidChoice Mode "w")).
Proof. reflexivity. Qed.

Example parse_missing_argument :
  parse_args ["a.h5"; "--dblist"]
  = inl (ParserError (ExpectedOneArgument Dblist)).
Proof. reflexivity. Qed.

Example parse_ambiguous_prefix :
  parse_args ["--ver"]
  = inl (ParserError (AmbiguousOption "--ver" ["--version"; "--verbose"])).
Proof. reflexivity. Qed.

Example parse_version :
  parse_args ["-v"; "--version"; "-m"; "w"] = inl VersionPrinted.
Proof. reflexivity. Qed.

End ArgparseSpec.

(* ------------------------------------------------------------------ *)
(** * Properties of the launcher *)

Module StartSpec.

Import Argparse ArgparseSpec Start.

(** ** The command line *)

(** Whatever the parser returns with a [dblist] that counts as true
    comes back with [mode] and [h5file] cleared. *)
Lemma parse_command_line_clears argv ns :
  parse_args argv = inr ns ->
  truthy (dblist ns) = true ->
  _parse_command_line argv
  = Returned (namespace "" (dblist ns) (log_file ns) (verbose ns) []).
Proof.
  intros H Hd. unfold _parse_command_line. now rewrite H, Hd.
Qed.



(** C10: when the command line has neither [-d/--dblist] nor
    [-m/--mode] (and the parser accepts it), [_parse_command_line]
    returns what the parser returns, with [mode] ['a'], [dblist] the
    empty string and [h5file] the file paths of the command line as
    they are given. *)
Theorem parse_command_line_defaults
    (argv : list string) (steps : list Step) (ns : Namespace) :
  steps_of argv = inr steps ->
  run steps defaults [] = inr ns ->
  (forall args, ~ In (Take Dblist args) steps) ->
  (forall args, ~ In (Take Mode args) steps) ->
  _parse_command_line argv = Returned ns
  /\ mode ns = "a" /\ dblist ns = "" /\ h5file ns = paths_given argv.
Proof.
  intros Hsteps Hrun Hd Hm.
  pose proof (run_keeps_dblist _ _ _ _ Hrun Hd) as Hdblist.
  pose proof (run_keeps_mode _ _ _ _ Hrun Hm) as Hmode.
  simpl in Hdblist, Hmode. repeat split; trivial.
  - unfold _parse_command_line, parse_args. rewrite Hsteps, Hrun.
    now rewrite Hdblist.
  - unfold steps_of in Hsteps.
    destruct (classify argv) as [e|ts] eqn:Hc; [discriminate|].
    injection Hsteps as <-. exact (run_paths_given _ _ _ _ Hc Hrun).
Qed.

(** ** Events *)

Lemma add_events_nil w : add_events [] w = w.
Proof. destruct w. unfold add_events. simpl. now rewrite app_nil_r. Qed.

Lemma add_events_app e1 e2 w :
  add_events e2 (add_events e1 w) = add_events (e1 ++ e2) w.
Proof. unfold add_events. simpl. now rewrite app_assoc. Qed.

Lemma for_each_emit r hs : forall w,
  for_each hs (fun h => if (handler_level h <=? levelno r)%Z
                        then event (Emit h r) else ret tt) w
  = (Returned tt,
     add_events (map (fun h => Emit h r) (List.filter (admits r) hs)) w).
Proof.
  induction hs as [|h hs IH]; intros w.
  - simpl. now rewrite add_events_nil.
  - simpl. unfold bind, admits.
    destruct (handler_level h <=? levelno r)%Z.
    + unfold event. rewrite IH. simpl. f_equal. apply add_events_app.
    + unfold ret. now rewrite IH.
Qed.

Lemma callHandlers_run r w :
  callHandlers r w
  = (Returned tt, add_events (map (fun h => Emit h r) (receivers r w)) w).
Proof.
  unfold callHandlers, bind, get, receivers.
  destruct (root_handlers w) as [|h hs] eqn:E.
  - unfold admits. destruct (handler_level lastResort <=? levelno r)%Z.
    + reflexivity.
    + unfold ret. now rewrite add_events_nil.
  - apply for_each_emit.
Qed.

Lemma Logger_error_run name msg w :
  Logger_error name msg w = (Returned tt, add_events (logged name msg w) w).
Proof.
  unfold Logger_error, logged, bind, get.
  destruct (isEnabledFor ERROR w).
  - apply callHandlers_run.
  - unfold ret. now rewrite add_events_nil.
Qed.

(** A handler of level [NOTSET] that the root logger has receives every
    record the root logger lets through. *)
Lemma logged_reaches name msg w h :
  isEnabledFor ERROR w = true ->
  In h (root_handlers w) ->
  handler_level h = NOTSET ->
  In (Emit h (log_record name ERROR msg)) (logged name msg w).
Proof.
  intros He Hin Hl. unfold logged. rewrite He.
  apply in_map_iff. exists h. split; [reflexivity|]. unfold receivers.
  destruct (root_handlers w) as [|h0 hs]; [contradiction|].
  apply filter_In. split; [assumption|].
  unfold admits. now rewrite Hl.
Qed.

Section Launcher.

Variable expanduser : string -> string.
Variable expandvars : string -> string.
Variable open_failure : string -> option Exn.
Variable format_tb : Traceback -> list string.

(** ** The exception hook *)

(** C5: the hook first logs the formatted traceback followed by
    [str(value)] as an error of the logger ["uncaught_logger"], then
    hands the same type, value and traceback to [sys.__excepthook__];
    it does nothing else. *)
Theorem uncaught_exception_hook_logs_then_forwards
    (type_ : string) (value : Exn) (tb : Traceback) (w : World) :
  _uncaught_exception_hook format_tb type_ value tb w
  = (Returned tt,
     add_events
       (logged "uncaught_logger"
               (join (format_tb tb) ++ exc_str value)%string w
        ++ [DefaultExcepthook type_ value tb]) w).
Proof.
  unfold _uncaught_exception_hook, bind.
  rewrite Logger_error_run, <- add_events_app. reflexivity.
Qed.

(** In the interpreter's initial state the record goes to
    [logging.lastResort], that is to stderr. *)
Lemma uncaught_exception_hook_initially type_ value tb version reg :
  snd (_uncaught_exception_hook format_tb type_ value tb
         (initial_world version reg))
  = world WARNING [] version reg
      [Emit lastResort
            (log_record "uncaught_logger" ERROR
               (join (format_tb tb) ++ exc_str value)%string);
       DefaultExcepthook type_ value tb].
Proof. reflexivity. Qed.

(** ** The version check *)

Lemma check_versions_exits w :
  fst (_check_versions w) <> Returned tt <->
  str_lt (tables_version w) "3.0" = true.
Proof.
  unfold _check_versions, bind, get.
  destruct (str_lt (tables_version w) "3.0"); simpl; split;
    congruence.
Qed.

(** C3, at version 10.0.0: the version is not below 3.0, and
    [_check_versions] exits with the fatal message. *)
Theorem check_versions_rejects_10_0_0 (reg : Registry) :
  version_below "10.0.0" "3.0" = Some false
  /\ fst (_check_versions (initial_world "10.0.0" reg))
     = SystemExit (ExitMessage
         "FATAL: PyTables version 3.0 or above is required, installed version is 10.0.0").
Proof. split; reflexivity. Qed.

(** ** Setting up the logger *)

Lemma logged_add_events name msg evs w :
  logged name msg (add_events evs w) = logged name msg w.
Proof. reflexivity. Qed.

(** The failure branch of the [try] statement. *)
Lemma log_file_failure e w :
  bind (Logger_error "root" "Failed to open log file")
       (fun _ => Logger_error "root" (exc_str e)) w
  = (Returned tt,
     add_events (logged "root" "Failed to open log file" w
                 ++ logged "root" (exc_str e) w) w).
Proof.
  unfold bind. rewrite !Logger_error_run, logged_add_events.
  now rewrite add_events_app.
Qed.

Lemma setup_logger_run (args : Namespace) (w : World) :
  _setup_logger expanduser expandvars open_failure args w
  = (Returned temporary_stderr_handler,
     after_level args
       (after_log_file expanduser expandvars open_failure args
          (add_handler temporary_stderr_handler w))).
Proof.
  unfold _setup_logger, after_level.
  unfold bind at 1. change (addHandler _ w)
    with (Returned tt, add_handler temporary_stderr_handler w).
  cbv beta iota. set (w1 := add_handler temporary_stderr_handler w).
  unfold bind at 1.
  match goal with
  | |- context [match ?m w1 with _ => _ end] =>
      assert (Hfile : m w1
        = (Returned tt,
           after_log_file expanduser expandvars open_failure args w1))
  end.
  { unfold after_log_file.
    destruct (log_file args) as [|b|z|path|items]; try reflexivity;
      unfold try_except, expanduser_value, bind at 1, raise;
      try apply log_file_failure.
    unfold ret at 1, FileHandler, bind at 1.
    destruct (open_failure (expandvars (expanduser path))) as [e|].
    - unfold raise. apply log_file_failure.
    - reflexivity. }
  rewrite Hfile. clear Hfile.
  set (w2 := after_log_file expanduser expandvars open_failure args w1).
  unfold bind at 1.
  destruct (dict_get _VERBOSITY_LOGLEVEL_DICT (verbose args)) as [level|].
  - reflexivity.
  - unfold bind at 1. change (setLevel ERROR w2)
      with (Returned tt, set_level ERROR w2).
    cbv beta iota. fold (invalid_verbosity (verbose args)).
    now rewrite Logger_error_run.
Qed.

Lemma after_log_file_handlers args w h :
  In h (root_handlers w) ->
  In h (root_handlers
          (after_log_file expanduser expandvars open_failure args w)).
Proof.
  unfold after_log_file.
  destruct (log_file args) as [|b|z|path|items]; trivial.
  destruct (open_failure _); simpl; [trivial|].
  intros H. apply in_or_app. now left.
Qed.

Lemma after_log_file_level args w :
  root_level (after_log_file expanduser expandvars open_failure args w)
  = root_level w.
Proof.
  unfold after_log_file.
  destruct (log_file args) as [|b|z|path|items]; trivial.
  now destruct (open_failure _).
Qed.

Lemma after_log_file_trace args w :
  exists evs,
    trace (after_log_file expanduser expandvars open_failure args w)
    = trace w ++ evs.
Proof.
  unfold after_log_file.
  destruct (log_file args) as [|b|z|path|items]; simpl; eauto;
    try (exists []; now rewrite app_nil_r).
  destruct (open_failure _); simpl; eauto. exists []. now rewrite app_nil_r.
Qed.

(** The level [_VERBOSITY_LOGLEVEL_DICT] gives a verbosity count. *)
Lemma verbosity_table v :
  dict_get _VERBOSITY_LOGLEVEL_DICT v
  = match v with
    | 0 => Some ERROR
    | 1 => Some WARNING
    | 2 => Some INFO
    | 3 => Some DEBUG
    | _ => None
    end.
Proof. do 4 (destruct v as [|v]; [reflexivity|]). reflexivity. Qed.

Lemma verbosity_cases v :
  (dict_get _VERBOSITY_LOGLEVEL_DICT v = Some (level_for v) /\ v <= 3)
  \/ (dict_get _VERBOSITY_LOGLEVEL_DICT v = None /\ 3 < v
      /\ level_for v = ERROR).
Proof.
  rewrite verbosity_table.
  do 4 (destruct v as [|v]; [left; split; [reflexivity|lia]|]).
  right. repeat split. lia.
Qed.

Lemma after_level_level args w :
  root_level (after_level args w) = level_for (verbose args).
Proof.
  unfold after_level.
  destruct (verbosity_cases (verbose args)) as [[-> _]|(-> & _ & ->)];
    reflexivity.
Qed.

Lemma after_level_handlers args w :
  root_handlers (after_level args w) = root_handlers w.
Proof.
  unfold after_level. now destruct (dict_get _ _).
Qed.

(** C2: [_setup_logger] leaves the root logger at the level the table
    {0: ERROR, 1: WARNING, 2: INFO, 3: DEBUG} gives the verbosity count;
    for a count outside the table the level is ERROR and the error
    message about the invalid verbosity level is logged (the handler
    [_setup_logger] installed emits it). *)
Theorem setup_logger_sets_level (args : Namespace) (w : World) :
  exists w' evs,
    _setup_logger expanduser expandvars open_failure args w
    = (Returned temporary_stderr_handler, w')
    /\ trace w' = trace w ++ evs
    /\ root_level w' = level_for (verbose args)
    /\ (3 < verbose args ->
        root_level w' = ERROR
        /\ In (Emit temporary_stderr_handler
                 (log_record "root" ERROR
                    (invalid_verbosity (verbose args)))) evs).
Proof.
  rewrite setup_logger_run.
  set (w1 := add_handler temporary_stderr_handler w).
  destruct (after_log_file_trace args w1) as [evs1 Hevs1].
  assert (Htemp : In temporary_stderr_handler
            (root_handlers
               (after_log_file expanduser expandvars open_failure args w1))).
  { apply after_log_file_handlers. simpl. apply in_or_app. right. now left. }
  remember (after_log_file expanduser expandvars open_failure args w1)
    as w2 eqn:Hw2.
  destruct (verbosity_cases (verbose args)) as [[E Hv]|(E & Hv & Hl)].
  - exists (after_level args w2), evs1. split; [reflexivity|].
    rewrite after_level_level. unfold after_level. rewrite E. simpl.
    repeat split; trivial; lia.
  - exists (after_level args w2),
      (evs1 ++ logged "root" (invalid_verbosity (verbose args))
                      (set_level ERROR w2)).
    split; [reflexivity|]. rewrite after_level_level.
    unfold after_level. rewrite E. simpl. rewrite Hevs1.
    repeat split; trivial.
    + now rewrite app_assoc.
    + apply in_or_app. right. now apply logged_reaches.
Qed.

(** C4: when [args.log_file] is given and opening it raises,
    [_setup_logger] still returns the temporary stderr handler, which is
    the one handler it has added to the root logger, and the level is
    set; if the root logger lets errors through, the handler emits
    ["Failed to open log file"] and the exception. *)
Theorem setup_logger_survives_log_file_failure
    (args : Namespace) (path : string) (e : Exn) (w : World) :
  log_file args = PyStr path ->
  open_failure (expandvars (expanduser path)) = Some e ->
  exists w' evs,
    _setup_logger expanduser expandvars open_failure args w
    = (Returned temporary_stderr_handler, w')
    /\ root_handlers w' = root_handlers w ++ [temporary_stderr_handler]
    /\ root_level w' = level_for (verbose args)
    /\ trace w' = trace w ++ evs
    /\ (isEnabledFor ERROR w = true ->
        In (Emit temporary_stderr_handler
              (log_record "root" ERROR "Failed to open log file")) evs
        /\ In (Emit temporary_stderr_handler
                 (log_record "root" ERROR (exc_str e))) evs).
Proof.
  intros Hpath Hfail. rewrite setup_logger_run.
  set (w1 := add_handler temporary_stderr_handler w).
  set (failure := logged "root" "Failed to open log file" w1
                  ++ logged "root" (exc_str e) w1).
  assert (Hw2 : after_log_file expanduser expandvars open_failure args w1
                = add_events failure w1).
  { unfold after_log_file. now rewrite Hpath, Hfail. }
  rewrite Hw2.
  assert (Hin : In temporary_stderr_handler (root_handlers w1)).
  { simpl. apply in_or_app. right. now left. }
  assert (Hlogged : isEnabledFor ERROR w = true ->
            In (Emit temporary_stderr_handler
                  (log_record "root" ERROR "Failed to open log file")) failure
            /\ In (Emit temporary_stderr_handler
                     (log_record "root" ERROR (exc_str e))) failure).
  { intros He. split; apply in_or_app; [left|right];
      now apply logged_reaches. }
  set (w2 := add_events failure w1).
  assert (Hevs : exists evs2, trace (after_level args w2) = trace w2 ++ evs2).
  { unfold after_level. destruct (dict_get _ _); simpl; eauto.
    exists []. now rewrite app_nil_r. }
  destruct Hevs as [evs2 Hevs].
  exists (after_level args w2), (failure ++ evs2).
  split; [reflexivity|].
  rewrite after_level_level, after_level_handlers, Hevs.
  repeat split.
  - simpl. now rewrite app_assoc.
  - apply in_or_app. left. now apply Hlogged.
  - apply in_or_app. left. now apply Hlogged.
Qed.

End Launcher.

(** ** Closing the open files *)

Lemma when_write cond s w :
  when cond (stderr_write s) w
  = (Returned tt, add_events (optional_write cond s) w).
Proof.
  destruct cond; simpl; [reflexivity|].
  unfold ret. now rewrite add_events_nil.
Qed.

Lemma closing_loop verbose hs : forall w,
  exists w',
    for_each hs (fun fileh =>
      bind (when (truthy verbose)
                 (stderr_write (filename fileh ++ "...")%string))
        (fun _ => bind (File_close fileh)
           (fun _ => when (truthy verbose) (stderr_write "done")))) w
    = (Returned tt, w')
    /\ trace w' = trace w ++ flat_map (closing verbose) hs.
Proof.
  induction hs as [|f hs IH]; intros w.
  - exists w. split; [reflexivity|]. simpl. now rewrite app_nil_r.
  - simpl for_each. unfold bind at 1. unfold bind at 1.
    rewrite when_write. unfold bind at 1. unfold File_close at 1.
    unfold bind at 1. unfold event at 1. unfold bind at 1.
    unfold get at 1, put at 1. rewrite when_write.
    match goal with
    | |- context [for_each hs ?body ?w1] =>
        destruct (IH w1) as (w' & Hrun & Htrace)
    end.
    exists w'. split; [exact Hrun|].
    rewrite Htrace. simpl. unfold closing.
    now rewrite <- !app_assoc.
Qed.

(** Every key of a dictionary has a value. *)
Lemma getitem_key items key :
  In key (keys items) -> exists fileh, getitem key items = Some fileh.
Proof.
  induction items as [|[k v] items IH]; [contradiction|].
  simpl. intros [->|H].
  - rewrite String.eqb_refl. eauto.
  - destruct (String.eqb k key); eauto.
Qed.

Lemma lookup_keys items (w : World) : forall l : list string,
  (forall key, In key l -> In key (keys items)) ->
  for_list l (fun key =>
    match getitem key items with
    | Some fileh => ret fileh
    | None => raise (KeyError key)
    end) w
  = (Returned
       (flat_map (fun key => match getitem key items with
                             | Some fileh => [fileh]
                             | None => []
                             end) l), w).
Proof.
  induction l as [|key l IH]; intros H; [reflexivity|].
  simpl. unfold bind at 1.
  destruct (getitem_key items key (H key (or_introl eq_refl))) as [f ->].
  unfold ret at 1. unfold bind at 1. rewrite IH; [reflexivity|].
  intros key' Hin. apply H. now right.
Qed.

Lemma length_values items : forall l : list string,
  (forall key, In key l -> In key (keys items)) ->
  List.length
    (flat_map (fun key => match getitem key items with
                          | Some fileh => [fileh]
                          | None => []
                          end) l)
  = List.length l.
Proof.
  induction l as [|key l IH]; intros H; [reflexivity|].
  simpl. destruct (getitem_key items key (H key (or_introl eq_refl))) as [f ->].
  simpl. rewrite IH; [reflexivity|].
  intros key' Hin. apply H. now right.
Qed.

Lemma registry_len_registered r :
  registry_len r = List.length (registered r).
Proof.
  destruct r as [hs|items]; simpl; [reflexivity|].
  rewrite length_values; [|trivial]. unfold keys. now rewrite length_map.
Qed.

Lemma values_other_keys k v items : forall l : list string,
  ~ In k l ->
  flat_map (fun key => match getitem key ((k, v) :: items) with
                       | Some fileh => [fileh]
                       | None => []
                       end) l
  = flat_map (fun key => match getitem key items with
                         | Some fileh => [fileh]
                         | None => []
                         end) l.
Proof.
  induction l as [|key l IH]; intros H; [reflexivity|].
  cbn [flat_map]. rewrite IH by (intros Hin; apply H; now right).
  cbn [getitem]. destruct (String.eqb_spec k key) as [->|_]; [|reflexivity].
  exfalso. apply H. now left.
Qed.

(** The values of a dictionary whose keys are distinct, in the order of
    its items. *)
Lemma registered_items items :
  NoDup (keys items) -> registered (FilesDict items) = map snd items.
Proof.
  simpl. induction items as [|[k v] items IH]; [reflexivity|].
  intros H. inversion H as [|? ? Hnotin Hnodup]; subst.
  simpl. rewrite String.eqb_refl. simpl. f_equal.
  rewrite <- (IH Hnodup). now apply values_other_keys.
Qed.

(** What [_close_open_files] does: with the layout its version test
    expects it returns, having gone through [close_events]; with the
    other layout it stops at the missing attribute. *)
Lemma close_open_files_run verbose w :
  if layout_matches w then
    exists w',
      _close_open_files verbose w = (Returned tt, w')
      /\ trace w' = trace w ++ close_events verbose (registered (open_files w))
  else
    exists e w', _close_open_files verbose w = (Raised e, w').
Proof.
  unfold layout_matches.
  destruct (open_files w) as [hs|items] eqn:Hreg;
    destruct (str_ge (tables_version w) "3.1.0") eqn:Hver; simpl negb;
    cbv iota; unfold _close_open_files;
    unfold bind at 1; unfold get at 1; cbv beta iota zeta;
    unfold bind at 1; rewrite when_write, registry_len_registered;
    simpl tables_version; simpl open_files; rewrite Hver, Hreg;
    unfold bind at 1.
  - unfold ret at 1. unfold bind at 1.
    match goal with
    | |- context [for_each hs ?body ?w1] =>
        destruct (closing_loop verbose hs w1) as (w2 & Hrun & Htrace)
    end.
    rewrite Hrun, when_write. eexists. split; [reflexivity|].
    simpl. rewrite Htrace. simpl. unfold close_events. simpl.
    now rewrite <- !app_assoc.
  - unfold raise. eauto.
  - unfold raise. eauto.
  - rewrite lookup_keys; [|trivial].
    unfold bind at 1.
    match goal with
    | |- context [for_each ?hs ?body ?w1] =>
        destruct (closing_loop verbose hs w1) as (w2 & Hrun & Htrace)
    end.
    rewrite Hrun, when_write. eexists. split; [reflexivity|].
    simpl. rewrite Htrace. simpl. unfold close_events. simpl.
    now rewrite <- !app_assoc.
Qed.

Lemma close_events_close verbose hs f :
  In f hs -> In (Close f) (close_events verbose hs).
Proof.
  intros H. unfold close_events.
  apply in_or_app. right. apply in_or_app. left.
  apply in_flat_map. exists f. split; [assumption|].
  unfold closing. apply in_or_app. right. now left.
Qed.

Lemma close_events_silent verbose hs s :
  truthy verbose = false -> ~ In (StderrWrite s) (close_events verbose hs).
Proof.
  intros Hv. unfold close_events, closing. rewrite Hv. simpl.
  rewrite app_nil_r. intros H. apply in_flat_map in H.
  destruct H as (f & _ & [H|[]]). discriminate H.
Qed.

(** C7: for the newer layout of the registry as for the older one,
    [_close_open_files] returns (when the layout is the one its version
    test expects), and once it has returned, [close()] has been called
    on every handle that was in the registry when it was called; when
    [verbose] is falsy nothing has been written to stderr. *)
Theorem close_open_files_closes_all (verbose : PyValue) (w : World) :
  (layout_matches w = true ->
   exists w', _close_open_files verbose w = (Returned tt, w'))
  /\ (forall w',
        _close_open_files verbose w = (Returned tt, w') ->
        exists evs,
          trace w' = trace w ++ evs
          /\ (forall f, In f (registered (open_files w)) -> In (Close f) evs)
          /\ (truthy verbose = false -> forall s, ~ In (StderrWrite s) evs)).
Proof.
  pose proof (close_open_files_run verbose w) as Hrun.
  destruct (layout_matches w).
  - destruct Hrun as (w0 & Hrun & Htrace). split.
    + intros _. now exists w0.
    + intros w' H. rewrite Hrun in H. injection H as <-.
      exists (close_events verbose (registered (open_files w))).
      split; [assumption|]. split.
      * intros f. apply close_events_close.
      * intros Hv s. now apply close_events_silent.
  - destruct Hrun as (e & w0 & Hrun). split; [discriminate|].
    intros w' H. rewrite Hrun in H. discriminate H.
Qed.

(** ** The launcher on concrete inputs *)


(** [vitables -v -l vt.log a.h5 b.h5] *)
Lemma parse_command_line_defaults_witness :
  _parse_command_line ["-v"; "-l"; "vt.log"; "a.h5"; "b.h5"]
  = Returned (namespace "a" "" "vt.log" 1 ["a.h5"; "b.h5"])
  /\ ["a.h5"; "b.h5"] = paths_given ["-v"; "-l"; "vt.log"; "a.h5"; "b.h5"].
Proof.
  destruct (parse_command_line_defaults
              ["-v"; "-l"; "vt.log"; "a.h5"; "b.h5"]
              [Take Verbose []; Take LogFile ["vt.log"];
               TakePositional ["a.h5"; "b.h5"]]
              (namespace "a" "" "vt.log" 1 ["a.h5"; "b.h5"]))
    as (Hret & _ & _ & Hpos).
  - reflexivity.
  - reflexivity.
  - intros args [H|[H|[H|[]]]]; discriminate H.
  - intros args [H|[H|[H|[]]]]; discriminate H.
  - split; assumption.
Defined.

(** A command line of file paths only. *)
Lemma parse_command_line_paths argv :
  Forall (fun s => startswith s "-" = false) argv ->
  _parse_command_line argv = Returned (namespace "a" "" PyNone 0 argv).
Proof.
  intros H. unfold _parse_command_line.
  now rewrite (parse_args_paths argv H).
Qed.

(** A list file, an access mode and file paths: the list file wins. *)
Lemma parse_command_line_dblist_mode_paths m v paths :
  m = "r" \/ m = "a" ->
  v <> "" ->
  Forall (fun s => startswith s "-" = false) (v :: paths) ->
  _parse_command_line ("-m" :: m :: "--dblist" :: v :: paths)
  = Returned (namespace "" v PyNone 0 []).
Proof.
  intros Hm Hv Hplain. inversion Hplain as [|? ? Hv' Hpaths]; subst.
  assert (Hparse : parse_args ("-m" :: m :: "--dblist" :: v :: paths)
                   = inr (namespace m v PyNone 0 paths)).
  { unfold parse_args, steps_of.
    assert (Hc : classify ("-m" :: m :: "--dblist" :: v :: paths)
                 = inr (Opt (Some Mode, "-m", None) :: Arg m
                        :: Opt (Some Dblist, "--dblist", None) :: Arg v
                        :: map Arg paths)).
    { change (classify ("-m" :: m :: "--dblist" :: v :: paths))
        with (match classify (m :: "--dblist" :: v :: paths) with
              | inl e => inl e
              | inr ts => inr (Opt (Some Mode, "-m", None) :: ts)
              end).
      assert (Hrest : classify ("--dblist" :: v :: paths)
                      = inr (Opt (Some Dblist, "--dblist", None) :: Arg v
                             :: map Arg paths)).
      { change (classify ("--dblist" :: v :: paths))
          with (match classify (v :: paths) with
                | inl e => inl e
                | inr ts => inr (Opt (Some Dblist, "--dblist", None) :: ts)
                end).
        now rewrite (classify_no_dash (v :: paths) Hplain). }
      rewrite classify_cons_no_dash, Hrest; [reflexivity|].
      now destruct Hm as [-> | ->]. }
    rewrite Hc. simpl consume.
    assert (Hpos : consume (map Arg paths) Pending = [TakePositional paths]).
    { destruct paths as [|s paths]; [reflexivity|].
      simpl. now rewrite consume_args. }
    rewrite Hpos. unfold takes. simpl.
    rewrite !get_values_one, (no_dash_not_separator v Hv').
    destruct Hm as [-> | ->]; reflexivity. }
  rewrite (parse_command_line_clears _ _ Hparse); [reflexivity|].
  simpl. now destruct (String.eqb_spec v "").
Qed.

(** The value of [--dblist] is that of its last occurrence: here it is
    empty, and mode and paths are kept. *)
Example parse_command_line_dblist_twice :
  _parse_command_line ["-d"; "files.txt"; "-d"; ""; "-m"; "r"; "a.h5"]
  = Returned (namespace "r" "" PyNone 0 ["a.h5"]).
Proof. reflexivity. Qed.

Example parse_command_line_invalid_mode :
  _parse_command_line ["-d"; "files.txt"; "-m"; "w"] = SystemExit (ExitCode 2).
Proof. reflexivity. Qed.

(** A log file that cannot be opened, in the interpreter's initial
    state. *)
Lemma setup_logger_survives_log_file_failure_witness :
  exists w' evs,
    _setup_logger (fun p => p) (fun p => p) (fun _ => Some permission_denied)
                  (namespace "a" "" "/vt.log" 0 [])
                  (initial_world "3.9.2" (FileRegistry []))
    = (Returned temporary_stderr_handler, w')
    /\ root_handlers w' = [temporary_stderr_handler]
    /\ root_level w' = ERROR
    /\ trace w' = evs
    /\ (isEnabledFor ERROR (initial_world "3.9.2" (FileRegistry [])) = true ->
        In (Emit temporary_stderr_handler
              (log_record "root" ERROR "Failed to open log file")) evs
        /\ In (Emit temporary_stderr_handler
                 (log_record "root" ERROR (exc_str permission_denied))) evs).
Proof.
  exact (setup_logger_survives_log_file_failure
           (fun p => p) (fun p => p) (fun _ => Some permission_denied)
           (namespace "a" "" "/vt.log" 0 []) "/vt.log"
           permission_denied (initial_world "3.9.2" (FileRegistry []))
           eq_refl eq_refl).
Defined.

Example setup_logger_log_file_failure_trace :
  snd (_setup_logger (fun p => p) (fun p => p)
                     (fun _ => Some permission_denied)
                     (namespace "a" "" "/vt.log" 0 [])
                     (initial_world "3.9.2" (FileRegistry [])))
  = world ERROR [temporary_stderr_handler] "3.9.2" (FileRegistry [])
      [Emit temporary_stderr_handler
            (log_record "root" ERROR "Failed to open log file");
       Emit temporary_stderr_handler
            (log_record "root" ERROR (exc_str permission_denied))].
Proof. reflexivity. Qed.

(** Five [-v] flags. *)
Example setup_logger_verbosity_5 :
  snd (_setup_logger (fun p => p) (fun p => p) (fun _ => None)
                     (namespace "a" "" PyNone 5 [])
                     (initial_world "3.9.2" (FileRegistry [])))
  = world ERROR [temporary_stderr_handler] "3.9.2" (FileRegistry [])
      [Emit temporary_stderr_handler
            (log_record "root" ERROR
               "Invalid verbosity level: 5, error level set to ERROR")].
Proof. reflexivity. Qed.

Example setup_logger_verbosity_2_with_log_file :
  snd (_setup_logger (fun p => p) (fun p => p) (fun _ => None)
                     (namespace "a" "" "vt.log" 2 [])
                     (initial_world "3.9.2" (FileRegistry [])))
  = world INFO [temporary_stderr_handler; file_handler "vt.log"] "3.9.2"
          (FileRegistry []) [].
Proof. reflexivity. Qed.

(** The version check on versions that exist. *)
Example check_versions_3_10_1 reg :
  fst (_check_versions (initial_world "3.10.1" reg)) = Returned tt.
Proof. reflexivity. Qed.

Example check_versions_2_4_1 reg :
  fst (_check_versions (initial_world "2.4.1" reg))
  = SystemExit (ExitMessage
      "FATAL: PyTables version 3.0 or above is required, installed version is 2.4.1").
Proof. reflexivity. Qed.

(** Two open files, in the newer and in the older layout. *)
Example close_open_files_registry :
  _close_open_files (PyBool false)
    (initial_world "3.9.2" (FileRegistry [a_h5; b_h5]))
  = (Returned tt,
     world WARNING [] "3.9.2" (FileRegistry []) [Close a_h5; Close b_h5]).
Proof. reflexivity. Qed.

Example close_open_files_dict :
  _close_open_files (PyBool false)
    (initial_world "3.0.0" (FilesDict [("b.h5", b_h5); ("a.h5", a_h5)]))
  = (Returned tt,
     world WARNING [] "3.0.0" (FilesDict []) [Close b_h5; Close a_h5]).
Proof. vm_compute. reflexivity. Qed.

Example close_open_files_verbose :
  trace (snd (_close_open_files (PyBool true)
                (initial_world "3.9.2" (FileRegistry [a_h5]))))
  = [StderrWrite "Closing remaining open files:"; StderrWrite "a.h5...";
     Close a_h5; StderrWrite "done"; StderrWrite (String LF "")].
Proof. reflexivity. Qed.

End StartSpec.

(* ------------------------------------------------------------------ *)
(** * The console over a session *)

Module ConsoleSpec.

Import Logger Console.

Section Widget.

Variable movePosition : MoveOperation -> list Paragraph -> nat -> nat.
Variable colorAt : list Paragraph -> nat -> QColor.
Variable elements : list string.

(** One call of [write]: at most one paragraph more, and the colour
    kept. *)
Lemma write_step text w :
  document (write movePosition colorAt text w)
  = document w ++ (if shown text then [rendered (textColor w) text] else [])
  /\ textColor (write movePosition colorAt text w) = textColor w.
Proof.
  unfold write, shown, rendered, color_for.
  destruct (str_in text [newline; crlf]); simpl.
  - now rewrite app_nil_r.
  - destruct (startswith text error_prefix);
      [|destruct (startswith text warning_prefix)]; split; reflexivity.
Qed.

Lemma writes_appended (texts : list string) : forall w,
  document (writes movePosition colorAt texts w)
  = document w ++ map (rendered (textColor w)) (List.filter shown texts)
  /\ textColor (writes movePosition colorAt texts w) = textColor w.
Proof.
  unfold writes.
  induction texts as [|text texts IH]; intros w; simpl.
  - now rewrite app_nil_r.
  - destruct (write_step text w) as [Hdoc Hcolor].
    destruct (IH (write movePosition colorAt text w)) as [IHdoc IHcolor].
    rewrite IHdoc, IHcolor, Hdoc, Hcolor. split; [|reflexivity].
    destruct (shown text); simpl.
    + now rewrite <- app_assoc.
    + now rewrite app_nil_r.
Qed.

Lemma inserted_rendered current (texts : list string) :
  Forall (fun text => mightBeRichText elements text = false /\ text <> "") texts ->
  map (inserted elements) (map (rendered current) texts)
  = map (fun text => PlainText text (color_for current text)) texts.
Proof.
  induction 1 as [|text texts [Hplain _] _ IH]; [reflexivity|].
  simpl. rewrite IH. unfold inserted at 1. simpl. now rewrite Hplain.
Qed.

(** X1: After a series of writes of texts that are not empty and that Qt
    does not take for rich text, the console shows what it showed
    before, followed by the written texts other than bare newlines, in
    the order they were written, as plain text; each is red or orange by
    its own prefix and otherwise in the colour the console had before
    the series, which is also the text colour after it. *)
Theorem writes_document (texts : list string) (w : QTextEdit) :
  Forall (fun text => mightBeRichText elements text = false /\ text <> "") texts ->
  map (inserted elements) (document (writes movePosition colorAt texts w))
  = map (inserted elements) (document w)
    ++ map (fun text => PlainText text (color_for (textColor w) text))
           (List.filter shown texts)
  /\ textColor (writes movePosition colorAt texts w) = textColor w.
Proof.
  intros Hplain. destruct (writes_appended texts w) as [-> ->].
  split; [|reflexivity]. rewrite map_app. f_equal.
  apply inserted_rendered.
  apply Forall_forall. intros text Hin. apply filter_In in Hin.
  rewrite Forall_forall in Hplain. now apply Hplain.
Qed.

End Widget.

(** The demonstration at the end of [logger.py]. *)
Lemma writes_document_witness :
  map (inserted html_elements)
    (document (writes at_end last_color demo (mkTextEdit [] 0 (rgb 0 0 0))))
  = [PlainText "Hola mundo!" (rgb 0 0 0);
     PlainText (String LF "Error: El viatger del crepuscle") (rgb 255 0 0);
     PlainText (String LF "Warning: Adolf Piquer") (rgb 243 137 8);
     PlainText "Adéu!" (rgb 0 0 0)]
  /\ textColor (writes at_end last_color demo (mkTextEdit [] 0 (rgb 0 0 0)))
     = rgb 0 0 0.
Proof.
  apply (writes_document at_end last_color html_elements demo
           (mkTextEdit [] 0 (rgb 0 0 0))).
  repeat constructor; discriminate.
Defined.

Section Menu.

Variable translate : string -> string -> string.
Variable isEmpty : list Paragraph -> bool.

(** X2: Whatever actions an earlier menu left (or none), asking for the
    context menu succeeds: it makes the three actions anew, Copy enabled
    exactly when the cursor has a selection, Clear All and Select All
    both enabled exactly when the document has text; it emits
    [disableCopyNodeAction()] once and changes nothing else. *)
Theorem context_menu_state (l : LoggerState) :
  exists acts,
    createCustomContextMenu translate isEmpty l
    = Returned (logger_state (edit l) (hasSelection l) (Some acts)
                  (lineWidth l) (frameStyle l)
                  (emitted l ++ ["disableCopyNodeAction()"]))
    /\ action_enabled (copy_action acts) = hasSelection l
    /\ action_enabled (clear_action acts) = negb (isEmpty (document (edit l)))
    /\ action_enabled (select_action acts)
       = negb (isEmpty (document (edit l)))
    /\ map action_slot [copy_action acts; clear_action acts; select_action acts]
       = ["copy()"; "clear()"; "selectAll()"].
Proof.
  destruct l as [e selection acts width style signals].
  unfold createCustomContextMenu, updateEditMenu. simpl.
  destruct selection, (isEmpty (document e));
    eexists; (split; [reflexivity|]); repeat split.
Qed.

End Menu.

(** ** Keyboard focus *)

Lemma focusEvent_frame l e :
  emitted (focusEvent l e) = emitted l ++ [focus_signal e]
  /\ actions (focusEvent l e) = actions l
  /\ lineWidth (focusEvent l e)
     = match e with FocusIn => 2 | FocusOut => 0 end%Z
  /\ frameStyle (focusEvent l e) = Z.lor Panel Plain.
Proof. destruct e; repeat split. Qed.

(** X3: Over any series of focus events the two handlers emit one signal
    per event, [disableCopyNodeAction()] for a focus in and
    [updateCopyNodeAction()] for a focus out, in the order of the events,
    and leave the menu actions alone; after one more event the frame is
    a plain panel (style 18) whose line is 2 wide if that event gave the
    logger the focus and 0 wide if it took it away, whatever came
    before. *)
Theorem focus_events (events : list FocusEvent) (l : LoggerState) :
  emitted (fold_left focusEvent events l)
  = emitted l ++ map focus_signal events
  /\ actions (fold_left focusEvent events l) = actions l
  /\ (forall e,
        lineWidth (fold_left focusEvent (events ++ [e]) l)
        = match e with FocusIn => 2 | FocusOut => 0 end%Z
        /\ frameStyle (fold_left focusEvent (events ++ [e]) l) = 18%Z).
Proof.
  repeat split.
  - revert l. induction events as [|e events IH]; intros l; simpl.
    + now rewrite app_nil_r.
    + rewrite IH. destruct (focusEvent_frame l e) as [-> _].
      now rewrite <- app_assoc.
  - revert l. induction events as [|e events IH]; intros l; simpl; trivial.
    rewrite IH. apply focusEvent_frame.
  - rewrite fold_left_app. simpl. apply focusEvent_frame.
  - rewrite fold_left_app. simpl. apply focusEvent_frame.
Qed.

End ConsoleSpec.

(* ------------------------------------------------------------------ *)
(** * Where the version check is right *)

Module VersionSpec.

Import Start.

Lemma is_digit_cases (c : ascii) :
  is_digit c = true ->
  In c ["0"; "1"; "2"; "3"; "4"; "5"; "6"; "7"; "8"; "9"]%char.
Proof.
  destruct c as [[] [] [] [] [] [] [] []]; intros H;
    try discriminate H; simpl; tauto.
Qed.

Ltac digit_cases H :=
  apply is_digit_cases in H;
  destruct H as [<-|[<-|[<-|[<-|[<-|[<-|[<-|[<-|[<-|[<-|[]]]]]]]]]]].

Lemma release_from_step c s cur :
  release_from (String c s) cur
  = if Ascii.eqb c "."%char then
      match release_from s 0 with
      | Some l => Some (cur :: l)
      | None => None
      end
    else if is_digit c then
      release_from s (10 * cur + digit_value c)
    else None.
Proof. reflexivity. Qed.

Lemma release_from_head s : forall cur n l,
  release_from s cur = Some (n :: l) -> cur <= n.
Proof.
  induction s as [|c s IH]; intros cur n l H.
  - injection H as <- _. lia.
  - rewrite release_from_step in H.
    destruct (Ascii.eqb c "."%char).
    + destruct (release_from s 0); [|discriminate]. injection H as <- _. lia.
    + destruct (is_digit c); [|discriminate].
      apply IH in H. lia.
Qed.

Lemma release_from_nonempty s : forall cur, release_from s cur <> Some [].
Proof.
  induction s as [|c s IH]; intros cur H; [discriminate|].
  rewrite release_from_step in H.
  destruct (Ascii.eqb c "."%char).
  - destruct (release_from s 0); discriminate.
  - destruct (is_digit c); [|discriminate]. now apply IH in H.
Qed.

(** The release of a version whose first number has one digit. *)
Lemma release_one_digit d s :
  is_digit d = true ->
  release (String d (String "." s))
  = match release_from s 0 with
    | Some l => Some (digit_value d :: l)
    | None => None
    end.
Proof. intros Hd. digit_cases Hd; reflexivity. Qed.

(** Against ["3.0"], the first digit decides unless it is a 3, and then
    any digit after the dot is high enough. *)
Lemma str_lt_one_digit d e rest :
  is_digit d = true ->
  is_digit e = true ->
  str_lt (String d (String "." (String e rest))) "3.0"
  = (digit_value d <? 3)%nat.
Proof.
  intros Hd He. digit_cases Hd; try reflexivity.
  digit_cases He; try reflexivity.
  now destruct rest.
Qed.

(** X4: For every version [d.e...] whose first number is a single digit (as
    in every release of PyTables so far), [_check_versions] decides as
    the order of versions does: it returns when the version is not below
    3.0 and exits with the fatal message when it is. *)
Theorem check_versions_one_digit_major
    (d e : ascii) (rest : string) (w : World) :
  is_digit d = true ->
  is_digit e = true ->
  tables_version w = String d (String "." (String e rest)) ->
  (version_below (tables_version w) "3.0" = Some false ->
   _check_versions w = (Returned tt, w))
  /\ (version_below (tables_version w) "3.0" = Some true ->
      exists msg, _check_versions w = (SystemExit (ExitMessage msg), w)).
Proof.
  intros Hd He Hv.
  unfold _check_versions, bind, get, version_below.
  rewrite Hv, (str_lt_one_digit d e rest Hd He), (release_one_digit d _ Hd).
  change (release "3.0") with (Some [3; 0]).
  destruct (release_from (String e rest) 0) as [[|n l]|] eqn:Hr.
  - now apply release_from_nonempty in Hr.
  - assert (Hlt : release_lt (digit_value d :: n :: l) [3; 0]
                  = (digit_value d <? 3)%nat).
    { simpl. destruct (digit_value d <? 3)%nat eqn:E1; [reflexivity|].
      destruct (3 <? digit_value d)%nat; [reflexivity|].
      destruct (n <? 0)%nat eqn:E2; [apply Nat.ltb_lt in E2; lia|].
      destruct (0 <? n)%nat; [reflexivity|]. now destruct l. }
    rewrite Hlt. destruct (digit_value d <? 3)%nat; split; intros H;
      try discriminate H; eauto.
  - split; discriminate.
Qed.

(** X5: For every version whose first number has two digits or more and
    begins with 1 or 2 (10.0, 21.3.1, ...), the version is not below 3.0
    and [_check_versions] exits with the fatal message all the same. *)
Theorem check_versions_rejects_majors_10_to_29
    (d1 d2 : ascii) (rest : string) (r : list nat) (w : World) :
  d1 = "1"%char \/ d1 = "2"%char ->
  is_digit d2 = true ->
  tables_version w = String d1 (String d2 rest) ->
  release (tables_version w) = Some r ->
  release_lt r [3; 0] = false
  /\ exists msg, _check_versions w = (SystemExit (ExitMessage msg), w).
Proof.
  intros Hd1 Hd2 Hv Hr. split.
  - rewrite Hv in Hr. unfold release in Hr.
    assert (Hhead : exists n l, r = n :: l /\ 10 <= n).
    { destruct r as [|n l]; [now apply release_from_nonempty in Hr|].
      exists n, l. split; [reflexivity|].
      destruct Hd1 as [-> | ->]; digit_cases Hd2;
        rewrite 2 release_from_step in Hr; simpl in Hr;
        apply release_from_head in Hr; lia. }
    destruct Hhead as (n & l & -> & Hn). simpl.
    destruct (n <? 3)%nat eqn:E1; [apply Nat.ltb_lt in E1; lia|].
    destruct (3 <? n)%nat eqn:E2; [reflexivity|].
    apply Nat.ltb_ge in E2. lia.
  - unfold _check_versions, bind, get. rewrite Hv.
    destruct Hd1 as [-> | ->]; simpl; eauto.
Qed.

Lemma check_versions_one_digit_major_witness :
  _check_versions (initial_world "3.10.1" (FileRegistry []))
  = (Returned tt, initial_world "3.10.1" (FileRegistry [])).
Proof.
  apply (check_versions_one_digit_major "3" "1" "0.1"
           (initial_world "3.10.1" (FileRegistry []))
           eq_refl eq_refl eq_refl).
  reflexivity.
Defined.

Lemma check_versions_rejects_majors_10_to_29_witness :
  release_lt [21; 3; 1] [3; 0] = false
  /\ exists msg,
       _check_versions (initial_world "21.3.1" (FileRegistry []))
       = (SystemExit (ExitMessage msg),
          initial_world "21.3.1" (FileRegistry [])).
Proof.
  exact (check_versions_rejects_majors_10_to_29 "2" "1" ".3.1" [21; 3; 1]
           (initial_world "21.3.1" (FileRegistry []))
           (or_intror eq_refl) eq_refl eq_refl eq_refl).
Defined.

End VersionSpec.

(* ------------------------------------------------------------------ *)
(** * What the command line comes back as *)

Module CommandLineSpec.

Import Argparse ArgparseSpec Start Observations.

(** ** The shape of the result *)

Lemma check_value_mode v :
  check_value Mode v = true -> v = "r" \/ v = "a".
Proof.
  unfold check_value, str_in. simpl.
  rewrite !orb_true_iff, !String.eqb_eq. intuition discriminate.
Qed.

Lemma stored_mode v :
  get_values Mode [v] = inr (stored v) ->
  stored v = "r" \/ stored v = "a" \/ stored v = PyList [].
Proof.
  rewrite get_values_one. unfold stored.
  destruct (String.eqb v "--"); [tauto|].
  destruct (check_value Mode v) eqn:E; [|discriminate].
  intros _. destruct (check_value_mode v E) as [-> | ->]; tauto.
Qed.

Lemma run_mode_choice steps : forall ns extras ns',
  run steps ns extras = inr ns' ->
  mode ns = "r" \/ mode ns = "a" \/ mode ns = PyList [] ->
  mode ns' = "r" \/ mode ns' = "a" \/ mode ns' = PyList [].
Proof.
  induction steps as [|s rest IH]; intros ns extras ns' H Hm; simpl in H.
  - destruct extras; [|discriminate]. now injection H as <-.
  - destruct s as [a args|args|x|e]; try discriminate.
    + destruct (take_action a args ns) as [?|ns1] eqn:E; [discriminate|].
      apply (IH _ _ _ H).
      apply take_action_store in E.
      destruct E as [[-> ->]|(v & -> & Hv & -> & Ha)]; [exact Hm|].
      destruct Ha as [->|[->| ->]]; try exact Hm.
      now apply stored_mode.
    + now apply (IH _ _ _ H).
    + now apply (IH _ _ _ H).
Qed.

Lemma run_dblist_kind steps ns extras ns' :
  run steps ns extras = inr ns' ->
  (exists v, dblist ns = PyStr v) \/ dblist ns = PyList [] ->
  (exists v, dblist ns' = PyStr v) \/ dblist ns' = PyList [].
Proof.
  intros H Hd. rewrite (run_dblist _ _ _ _ H).
  destruct (given Dblist steps) as [v|]; [|exact Hd].
  unfold stored. destruct (String.eqb v "--"); eauto.
Qed.

(** X6: Every record [_parse_command_line] returns is of one of two
    kinds.  Either [dblist] is a non-empty string, [mode] is the empty
    string and there is no path; or [dblist] is the empty string or the
    empty list, and [mode] is ['r'], ['a'] or the empty list. *)
Theorem parse_command_line_result (argv : list string) (ns : Namespace) :
  _parse_command_line argv = Returned ns ->
  (exists v, dblist ns = PyStr v /\ v <> "" /\ mode ns = "" /\ h5file ns = [])
  \/ ((dblist ns = "" \/ dblist ns = PyList [])
      /\ (mode ns = "r" \/ mode ns = "a" \/ mode ns = PyList [])).
Proof.
  unfold _parse_command_line, parse_args.
  destruct (steps_of argv) as [e|steps]; [discriminate|].
  destruct (run steps defaults []) as [x|args] eqn:Hrun; [discriminate|].
  pose proof (run_mode_choice _ _ _ _ Hrun) as Hmode.
  pose proof (run_dblist_kind _ _ _ _ Hrun) as Hkind.
  destruct Hkind as [[v Hv]| Hl]; [left; now exists "" | |].
  - rewrite Hv. simpl. destruct (String.eqb_spec v "") as [->|Hne]; simpl;
      intros [= <-]; simpl.
    + right. split; [now left|]. apply Hmode. simpl. tauto.
    + left. exists v. tauto.
  - rewrite Hl. simpl. intros [= <-]. right. split; [now right|].
    apply Hmode. simpl. tauto.
Qed.

Lemma parse_command_line_result_witness :
  (exists v, PyStr "files.txt" = PyStr v /\ v <> ""
             /\ PyStr "" = "" /\ @nil string = [])
  \/ ((PyStr "files.txt" = "" \/ PyStr "files.txt" = PyList [])
      /\ (PyStr "" = "r" \/ PyStr "" = "a" \/ PyStr "" = PyList [])).
Proof.
  exact (parse_command_line_result
           ["-m"; "r"; "-d"; "files.txt"; "a.h5"]
           (namespace "" "files.txt" PyNone 0 []) eq_refl).
Defined.

(** An attached ["--"] leaves the empty list, without the check of the
    choices. *)
Example parse_command_line_mode_double_dash :
  _parse_command_line ["--mode=--"; "a.h5"]
  = Returned (namespace (PyList []) "" PyNone 0 ["a.h5"]).
Proof. reflexivity. Qed.

(** ** After a double dash *)

Lemma consume_pending_args l :
  consume (map Arg l) Pending = [TakePositional l].
Proof.
  destruct l as [|s l]; [reflexivity|]. simpl. now rewrite consume_args.
Qed.

(** X7: Whatever follows a leading ["--"] is a file path, be it the name of
    an option: each string is returned in [h5file] as it is written, and
    the rest of the record is the defaults. *)
Theorem parse_command_line_after_double_dash (paths : list string) :
  _parse_command_line ("--" :: paths)
  = Returned (namespace "a" "" PyNone 0 paths).
Proof.
  unfold _parse_command_line, parse_args, steps_of.
  change (classify ("--" :: paths)) with
    (@inr ArgumentError _ (DoubleDash :: map Arg paths)).
  cbv beta iota.
  change (consume (DoubleDash :: map Arg paths) Pending)
    with (consume (map Arg paths) (Collecting [])).
  now rewrite consume_args.
Qed.

(** ** Counting [-v] *)

Lemma classify_verbose rest :
  classify ("-v" :: rest)
  = match classify rest with
    | inl e => inl e
    | inr ts => inr (verbose_flag :: ts)
    end.
Proof. reflexivity. Qed.

Lemma classify_verbose_flags n paths :
  Forall (fun s => startswith s "-" = false) paths ->
  classify (repeat "-v" n ++ paths)
  = inr (repeat verbose_flag n ++ map Arg paths).
Proof.
  intros H. induction n as [|n IH].
  - now apply classify_no_dash.
  - change (repeat "-v" (S n) ++ paths)
      with ("-v" :: (repeat "-v" n ++ paths)).
    now rewrite classify_verbose, IH.
Qed.

Lemma consume_verbose_flags n ts :
  consume (repeat verbose_flag n ++ ts) Pending
  = repeat (Take Verbose []) n ++ consume ts Pending.
Proof.
  induction n as [|n IH]; [reflexivity|].
  change (consume (repeat verbose_flag (S n) ++ ts) Pending)
    with (Take Verbose [] :: consume (repeat verbose_flag n ++ ts) Pending).
  now rewrite IH.
Qed.

Lemma run_verbose_flags n rest : forall ns extras,
  run (repeat (Take Verbose []) n ++ rest) ns extras
  = run rest (set_verbose (n + verbose ns) ns) extras.
Proof.
  induction n as [|n IH]; intros ns extras.
  - now destruct ns.
  - simpl. rewrite IH. simpl. now rewrite Nat.add_succ_r.
Qed.

(** X8: [n] flags [-v] before the file paths come back as [verbose = n],
    for every [n], with the paths in [h5file]. *)
Theorem parse_command_line_counts_verbose
    (n : nat) (paths : list string) :
  Forall (fun s => startswith s "-" = false) paths ->
  _parse_command_line (repeat "-v" n ++ paths)
  = Returned (namespace "a" "" PyNone n paths).
Proof.
  intros H. unfold _parse_command_line, parse_args, steps_of.
  rewrite (classify_verbose_flags n paths H), consume_verbose_flags,
    consume_pending_args, run_verbose_flags.
  simpl. now rewrite Nat.add_0_r.
Qed.

Lemma parse_command_line_counts_verbose_witness :
  _parse_command_line ["-v"; "-v"; "-v"; "-v"; "-v"; "a.h5"]
  = Returned (namespace "a" "" PyNone 5 ["a.h5"]).
Proof.
  apply (parse_command_line_counts_verbose 5 ["a.h5"]).
  repeat constructor.
Defined.

(** ** File paths on both sides of an option *)

Lemma classify_app_no_dash p rest :
  Forall (fun s => startswith s "-" = false) p ->
  classify (p ++ rest)
  = match classify rest with
    | inl e => inl e
    | inr ts => inr (map Arg p ++ ts)
    end.
Proof.
  induction 1 as [|s p Hs _ IH].
  - simpl. now destruct (classify rest).
  - change ((s :: p) ++ rest) with (s :: (p ++ rest)).
    rewrite (classify_cons_no_dash s _ Hs), IH.
    now destruct (classify rest).
Qed.

Lemma consume_collecting_args l rest : forall args,
  consume (map Arg l ++ rest) (Collecting args)
  = consume rest (Collecting (args ++ l)).
Proof.
  induction l as [|s l IH]; intros args; simpl.
  - now rewrite app_nil_r.
  - now rewrite IH, <- app_assoc.
Qed.

Lemma consume_consumed_args l :
  consume (map Arg l) Consumed = map Extra l.
Proof. induction l as [|s l IH]; [reflexivity|]. simpl. now rewrite IH. Qed.

Lemma run_extras l : forall ns extras,
  run (map Extra l) ns extras
  = match extras ++ l with
    | [] => inr ns
    | s :: rest => inl (ParserError (UnrecognizedArguments (s :: rest)))
    end.
Proof.
  induction l as [|s l IH]; intros ns extras; simpl.
  - rewrite app_nil_r. now destruct extras.
  - rewrite IH, <- app_assoc. reflexivity.
Qed.

(** X9: File paths may stand before the options or after them, not both:
    when paths stand on both sides of [-v], the parser takes the first
    group and reports the second as unrecognised, and
    [_parse_command_line] exits with status 2. *)
Theorem parse_command_line_paths_around_option (p q : list string) :
  p <> [] -> q <> [] ->
  Forall (fun s => startswith s "-" = false) p ->
  Forall (fun s => startswith s "-" = false) q ->
  parse_args (p ++ "-v" :: q) = inl (ParserError (UnrecognizedArguments q))
  /\ _parse_command_line (p ++ "-v" :: q) = SystemExit (ExitCode 2).
Proof.
  intros Hp Hq Fp Fq.
  assert (H : parse_args (p ++ "-v" :: q)
              = inl (ParserError (UnrecognizedArguments q))).
  { unfold parse_args, steps_of.
    rewrite (classify_app_no_dash p _ Fp), classify_verbose,
      (classify_no_dash q Fq).
    destruct p as [|s p]; [contradiction|].
    change (consume (map Arg (s :: p) ++ verbose_flag :: map Arg q) Pending)
      with (consume (map Arg p ++ verbose_flag :: map Arg q) (Collecting [s])).
    rewrite consume_collecting_args.
    change (consume (verbose_flag :: map Arg q) (Collecting ([s] ++ p)))
      with (TakePositional ([s] ++ p) :: Take Verbose []
            :: consume (map Arg q) Consumed).
    rewrite consume_consumed_args. simpl run. rewrite run_extras.
    destruct q; [contradiction|reflexivity]. }
  split; [exact H|]. unfold _parse_command_line. now rewrite H.
Qed.

Lemma parse_command_line_paths_around_option_witness :
  parse_args (["a.h5"] ++ "-v" :: ["b.h5"; "c.h5"])
  = inl (ParserError (UnrecognizedArguments ["b.h5"; "c.h5"]))
  /\ _parse_command_line (["a.h5"] ++ "-v" :: ["b.h5"; "c.h5"])
     = SystemExit (ExitCode 2).
Proof.
  apply (parse_command_line_paths_around_option ["a.h5"] ["b.h5"; "c.h5"]);
    try discriminate; repeat constructor.
Defined.

End CommandLineSpec.

(* ------------------------------------------------------------------ *)
(** * The root logger after the setup *)

Module LoggingSpec.

Import Argparse Start StartSpec.

Section Launcher.

Variable expanduser : string -> string.
Variable expandvars : string -> string.
Variable open_failure : string -> option Exn.
Variable format_tb : Traceback -> list string.

(** X10: [_setup_logger] removes no handler of the root logger and adds one
    or two after those it finds: the stderr handler always, and after it
    a file handler for the expanded path exactly when [log_file] is a
    path and the file can be opened.  Both have the file log format and
    let every level through. *)
Theorem setup_logger_handlers (args : Namespace) (w : World) :
  root_handlers
    (snd (_setup_logger expanduser expandvars open_failure args w))
  = root_handlers w
    ++ handler Stderr (Some _FILE_LOG_FORMAT) NOTSET
    :: match log_file args with
       | PyStr path =>
           match open_failure (expandvars (expanduser path)) with
           | None =>
               [handler (LogFileAt (expandvars (expanduser path)))
                        (Some _FILE_LOG_FORMAT) NOTSET]
           | Some _ => []
           end
       | _ => []
       end.
Proof.
  rewrite setup_logger_run. simpl snd. rewrite after_level_handlers.
  unfold after_log_file.
  destruct (log_file args) as [|b|z|path|items]; try reflexivity.
  destruct (open_failure (expandvars (expanduser path))); simpl.
  - reflexivity.
  - now rewrite <- app_assoc.
Qed.

(** X11: When the verbosity is in the table and [log_file] is [None] or
    the path of a file that opens, [_setup_logger] logs nothing: no
    handler emits a record. *)
Theorem setup_logger_quiet (args : Namespace) (w : World) :
  verbose args <= 3 ->
  log_file args = PyNone
  \/ (exists path, log_file args = PyStr path
                   /\ open_failure (expandvars (expanduser path)) = None) ->
  trace (snd (_setup_logger expanduser expandvars open_failure args w))
  = trace w.
Proof.
  intros Hv Hopen. rewrite setup_logger_run. simpl snd.
  unfold after_level.
  destruct (verbosity_cases (verbose args)) as [[-> _]|(_ & Hv' & _)];
    [|lia].
  simpl. unfold after_log_file.
  destruct Hopen as [-> | (path & -> & ->)]; reflexivity.
Qed.

Lemma level_for_lets_errors_through v : (level_for v <= ERROR)%Z.
Proof.
  do 4 (destruct v as [|v];
        [unfold level_for, ERROR, WARNING, INFO, DEBUG; lia|]).
  reflexivity.
Qed.

(** X12: Whatever the verbosity, once [_setup_logger] has run an uncaught
    exception is logged by the stderr handler it installed before the
    default hook is called: no verbosity silences errors. *)
Theorem uncaught_exception_after_setup
    (args : Namespace) (type_ : string) (value : Exn) (tb : Traceback)
    (w : World) :
  let w1 :=
    snd (_setup_logger expanduser expandvars open_failure args w) in
  exists evs,
    _uncaught_exception_hook format_tb type_ value tb w1
    = (Returned tt,
       add_events (evs ++ [DefaultExcepthook type_ value tb]) w1)
    /\ In (Emit (handler Stderr (Some _FILE_LOG_FORMAT) NOTSET)
             (log_record "uncaught_logger" ERROR
                (join (format_tb tb) ++ exc_str value)%string)) evs.
Proof.
  intros w1.
  exists (logged "uncaught_logger"
            (join (format_tb tb) ++ exc_str value)%string w1).
  split.
  - unfold _uncaught_exception_hook, bind.
    rewrite Logger_error_run, <- add_events_app. reflexivity.
  - apply logged_reaches; [| |reflexivity].
    + unfold isEnabledFor, w1. rewrite setup_logger_run. simpl snd.
      rewrite after_level_level. apply Z.leb_le.
      apply level_for_lets_errors_through.
    + unfold w1. rewrite setup_logger_run. simpl snd.
      rewrite after_level_handlers. apply after_log_file_handlers.
      simpl. apply in_or_app. right. now left.
Qed.

End Launcher.

Lemma setup_logger_quiet_witness :
  trace (snd (_setup_logger (fun p => p) (fun p => p) (fun _ => None)
                 (namespace "a" "" "vt.log" 2 [])
                 (initial_world "3.9.2" (FileRegistry []))))
  = [].
Proof.
  apply (setup_logger_quiet (fun p => p) (fun p => p) (fun _ => None)
           (namespace "a" "" "vt.log" 2 [])
           (initial_world "3.9.2" (FileRegistry []))).
  - simpl. lia.
  - right. exists "vt.log". split; reflexivity.
Defined.

End LoggingSpec.

(* ------------------------------------------------------------------ *)
(** * What the exit hook closes and reports *)

Module CleanupSpec.

Import Start StartSpec Observations.

Lemma append_assoc (a b c : string) :
  ((a ++ b) ++ c)%string = (a ++ (b ++ c))%string.
Proof.
  induction a as [|x a IH]; [reflexivity|].
  change (String x ((a ++ b) ++ c)%string = String x (a ++ (b ++ c))%string).
  now rewrite IH.
Qed.

Lemma join_app l1 l2 : join (l1 ++ l2) = (join l1 ++ join l2)%string.
Proof.
  induction l1 as [|a l1 IH]; [reflexivity|].
  change (join ((a :: l1) ++ l2)) with (a ++ join (l1 ++ l2))%string.
  change (join (a :: l1)) with (a ++ join l1)%string.
  now rewrite IH, append_assoc.
Qed.

Lemma closed_files_app e1 e2 :
  closed_files (e1 ++ e2) = closed_files e1 ++ closed_files e2.
Proof. apply flat_map_app. Qed.

Lemma stderr_text_app e1 e2 :
  stderr_text (e1 ++ e2) = (stderr_text e1 ++ stderr_text e2)%string.
Proof. unfold stderr_text. now rewrite flat_map_app, join_app. Qed.

Lemma closed_files_optional_write cond s :
  closed_files (optional_write cond s) = [].
Proof. now destruct cond. Qed.

Lemma closed_files_closing verbose hs :
  closed_files (flat_map (closing verbose) hs) = hs.
Proof.
  induction hs as [|f hs IH]; [reflexivity|].
  simpl flat_map. rewrite closed_files_app, IH. unfold closing.
  rewrite !closed_files_app, !closed_files_optional_write. reflexivity.
Qed.

Lemma closed_files_close_events verbose hs :
  closed_files (close_events verbose hs) = hs.
Proof.
  unfold close_events.
  rewrite !closed_files_app, !closed_files_optional_write,
    closed_files_closing.
  now rewrite app_nil_r.
Qed.

(** X13: Once [_close_open_files] has returned, it has closed the handles of
    the registry, each one once and no other file, in the order in which
    the registry gives them: for a dictionary, the values of its items
    in the order in which the items were inserted. *)
Theorem close_open_files_once (verbose : PyValue) (w w' : World) :
  _close_open_files verbose w = (Returned tt, w') ->
  exists evs,
    trace w' = trace w ++ evs
    /\ closed_files evs = registered (open_files w)
    /\ (forall items,
          open_files w = FilesDict items ->
          NoDup (keys items) ->
          closed_files evs = map snd items).
Proof.
  intros H. pose proof (close_open_files_run verbose w) as Hrun.
  destruct (layout_matches w).
  - destruct Hrun as (w0 & Hrun & Htrace).
    rewrite Hrun in H. injection H as <-.
    exists (close_events verbose (registered (open_files w))).
    split; [assumption|]. rewrite closed_files_close_events.
    split; [reflexivity|].
    intros items -> Hkeys. now apply registered_items.
  - destruct Hrun as (e & w0 & Hrun). rewrite Hrun in H. discriminate H.
Qed.

Lemma stderr_text_closing hs :
  stderr_text (flat_map (closing (PyBool true)) hs)
  = join (map (fun f => (filename f ++ "...done")%string) hs).
Proof.
  induction hs as [|f hs IH]; [reflexivity|].
  change (flat_map (closing (PyBool true)) (f :: hs))
    with (closing (PyBool true) f ++ flat_map (closing (PyBool true)) hs).
  rewrite stderr_text_app, IH.
  change (stderr_text (closing (PyBool true) f))
    with ((filename f ++ "...") ++ "done")%string.
  now rewrite (append_assoc (filename f) "..." "done").
Qed.

(** X14: With a truthy [verbose] and at least one open file, what
    [_close_open_files] writes to stderr reads
    [Closing remaining open files:], then [<file name>...done] for each
    file in the order of the registry, then a newline. *)
Theorem close_open_files_report (verbose : PyValue) (w w' : World) :
  truthy verbose = true ->
  registered (open_files w) <> [] ->
  _close_open_files verbose w = (Returned tt, w') ->
  exists evs,
    trace w' = trace w ++ evs
    /\ stderr_text evs
       = ("Closing remaining open files:"
          ++ join (map (fun f => (filename f ++ "...done")%string)
                       (registered (open_files w)))
          ++ String LF "")%string.
Proof.
  intros Hv Hopen H. pose proof (close_open_files_run verbose w) as Hrun.
  destruct (layout_matches w).
  - destruct Hrun as (w0 & Hrun & Htrace).
    rewrite Hrun in H. injection H as <-.
    exists (close_events verbose (registered (open_files w))).
    split; [assumption|].
    unfold close_events. rewrite Hv.
    destruct (registered (open_files w)) as [|f hs] eqn:Hreg;
      [contradiction|].
    change (true && (0 <? List.length (f :: hs))%nat) with true.
    rewrite !stderr_text_app.
    assert (Hloop : flat_map (closing verbose) (f :: hs)
                    = flat_map (closing (PyBool true)) (f :: hs)).
    { apply flat_map_ext. intros g. unfold closing. now rewrite Hv. }
    rewrite Hloop, stderr_text_closing. reflexivity.
  - destruct Hrun as (e & w0 & Hrun). rewrite Hrun in H. discriminate H.
Qed.

Lemma registered_nil items :
  registered (FilesDict items) = [] -> items = [].
Proof.
  intros H. pose proof (registry_len_registered (FilesDict items)) as Hlen.
  rewrite H in Hlen. now destruct items.
Qed.

(** X15: With no open file and the layout its version test expects,
    [_close_open_files] returns and leaves the state as it is: nothing is
    written, even when [verbose] is truthy. *)
Theorem close_open_files_nothing_open (verbose : PyValue) (w : World) :
  registered (open_files w) = [] ->
  layout_matches w = true ->
  _close_open_files verbose w = (Returned tt, w).
Proof.
  intros Hreg Hlayout.
  unfold layout_matches in Hlayout.
  unfold _close_open_files.
  unfold bind at 1. unfold get at 1. cbv beta iota zeta.
  unfold bind at 1.
  rewrite when_write, registry_len_registered, Hreg.
  rewrite andb_false_r. simpl optional_write. rewrite add_events_nil.
  unfold bind at 1.
  destruct (open_files w) as [hs|items] eqn:Hopen.
  - rewrite Hlayout. simpl in Hreg. subst hs.
    unfold ret at 1. simpl. unfold bind, ret. simpl.
    rewrite ?add_events_nil. reflexivity.
  - apply negb_true_iff in Hlayout. rewrite Hlayout.
    rewrite (registered_nil items Hreg).
    simpl. unfold bind, ret. simpl.
    rewrite ?add_events_nil. reflexivity.
Qed.

(** The attribute [_close_open_files] reads of the registry. *)
Lemma close_open_files_attribute (verbose : PyValue) (w : World) :
  layout_matches w = false ->
  _close_open_files verbose w
  = (Raised (if str_ge (tables_version w) "3.1.0"
             then attribute_error "dict" "handlers"
             else attribute_error "_FileRegistry" "keys"),
     add_events
       (optional_write
          (truthy verbose
           && (0 <? List.length (registered (open_files w)))%nat)
          "Closing remaining open files:") w).
Proof.
  intros Hlayout. unfold layout_matches in Hlayout.
  unfold _close_open_files.
  unfold bind at 1. unfold get at 1. cbv beta iota zeta.
  unfold bind at 1. rewrite when_write, registry_len_registered.
  unfold bind at 1.
  destruct (open_files w) as [hs|items] eqn:Hopen; simpl tables_version.
  - now rewrite Hlayout.
  - apply negb_false_iff in Hlayout. now rewrite Hlayout.
Qed.

(** X16: When the registry has not the layout the version test expects,
    [_close_open_files] raises [AttributeError] at the attribute it
    reads; it has closed no file, the registry is as it was, and at most
    the opening line has been written. *)
Theorem close_open_files_wrong_layout (verbose : PyValue) (w : World) :
  layout_matches w = false ->
  exists name evs,
    _close_open_files verbose w
    = (Raised (exception "AttributeError" name), add_events evs w)
    /\ closed_files evs = [].
Proof.
  intros Hlayout. rewrite (close_open_files_attribute verbose w Hlayout).
  destruct (str_ge (tables_version w) "3.1.0");
    (eexists _, _; split; [reflexivity|]; apply closed_files_optional_write).
Qed.

(** A dictionary in which [b.h5] was opened before [a.h5]. *)
Lemma close_open_files_once_witness :
  exists evs,
    [Close b_h5; Close a_h5] = evs
    /\ closed_files evs = [b_h5; a_h5]
    /\ (forall items,
          FilesDict [("b.h5", b_h5); ("a.h5", a_h5)] = FilesDict items ->
          NoDup (keys items) ->
          closed_files evs = map snd items).
Proof.
  exact (close_open_files_once (PyBool false)
           (initial_world "3.0.0"
              (FilesDict [("b.h5", b_h5); ("a.h5", a_h5)]))
           (world WARNING [] "3.0.0" (FilesDict [])
                  [Close b_h5; Close a_h5])
           eq_refl).
Defined.

Lemma close_open_files_report_witness :
  exists evs,
    [StderrWrite "Closing remaining open files:";
     StderrWrite "b.h5..."; Close b_h5; StderrWrite "done";
     StderrWrite "a.h5..."; Close a_h5; StderrWrite "done";
     StderrWrite (String LF "")] = evs
    /\ stderr_text evs
       = ("Closing remaining open files:b.h5...donea.h5...done"
          ++ String LF "")%string.
Proof.
  refine (close_open_files_report (PyBool true)
            (initial_world "3.0.0"
               (FilesDict [("b.h5", b_h5); ("a.h5", a_h5)]))
            (world WARNING [] "3.0.0" (FilesDict [])
               [StderrWrite "Closing remaining open files:";
                StderrWrite "b.h5..."; Close b_h5; StderrWrite "done";
                StderrWrite "a.h5..."; Close a_h5; StderrWrite "done";
                StderrWrite (String LF "")])
            eq_refl _ eq_refl).
  discriminate.
Defined.

Lemma close_open_files_nothing_open_witness :
  _close_open_files (PyBool true) (initial_world "3.0.0" (FilesDict []))
  = (Returned tt, initial_world "3.0.0" (FilesDict [])).
Proof.
  apply (close_open_files_nothing_open (PyBool true)
           (initial_world "3.0.0" (FilesDict [])));
    reflexivity.
Defined.

Lemma close_open_files_wrong_layout_witness :
  exists name evs,
    _close_open_files (PyBool false)
      (initial_world "10.0.0" (FileRegistry [a_h5]))
    = (Raised (exception "AttributeError" name),
       add_events evs (initial_world "10.0.0" (FileRegistry [a_h5])))
    /\ closed_files evs = [].
Proof.
  exact (close_open_files_wrong_layout (PyBool false)
           (initial_world "10.0.0" (FileRegistry [a_h5])) eq_refl).
Defined.

End CleanupSpec.

(* ------------------------------------------------------------------ *)
(** * The application object and the script *)

Module StartupSpec.

Import Start StartSpec Startup Observations CleanupSpec.

Section Application.

Variable getVersion : string.
Variable user_locale : option (Category -> string).
Variable system_locale_name : string.
Variable load : string -> string -> option string.
Variable _I18N_PATH : string.

(** X17: [_set_credentials] followed by [_set_locale], as [gui] calls them.
    If the user's locale is one the system has, the call returns: numbers
    use the C locale whatever the user's locale is, every other category
    uses the user's; the translator returned holds the translation found
    for the system locale, and it is installed, after the translators
    already there, exactly when one is found; the credentials are those
    of ViTables.  If the user's locale is not one the system has,
    [locale.Error] is raised. *)
Theorem credentials_and_locale (p : Process) :
  match _set_locale user_locale system_locale_name load _I18N_PATH
          (process (locale p) (_set_credentials getVersion (app p))) with
  | Returned (t, p') =>
      exists u,
        user_locale = Some u
        /\ locale p' LC_NUMERIC = "C"
        /\ (forall c, c <> LC_NUMERIC -> locale p' c = u c)
        /\ translation t
           = load ("vitables_" ++ system_locale_name)%string _I18N_PATH
        /\ translators (app p')
           = translators (app p)
             ++ match translation t with Some _ => [t] | None => [] end
        /\ organizationDomain (app p') = "vitables.org"
        /\ organizationName (app p') = "ViTables"
        /\ applicationName (app p') = "ViTables"
        /\ applicationVersion (app p') = getVersion
  | Raised e => user_locale = None /\ exc_type e = "locale.Error"
  | SystemExit _ => False
  end.
Proof.
  unfold _set_locale, setlocale_all_default.
  destruct user_locale as [u|].
  - destruct (load ("vitables_" ++ system_locale_name)%string _I18N_PATH)
      as [file|] eqn:Hload; exists u; simpl; rewrite ?app_nil_r;
      repeat split; try (now rewrite Hload);
      intros c Hc; unfold setlocale; destruct c; try reflexivity;
      contradiction.
  - now split.
Qed.

End Application.

(** ** The script *)

Lemma str_lt_le a b : str_lt a b = true -> String.leb a b = true.
Proof.
  unfold str_lt, String.ltb, String.leb.
  now destruct (String.compare a b).
Qed.

(** A version the check rejects is below 3.1.0 for the test of
    [_close_open_files] too. *)
Lemma rejected_version_uses_keys v :
  str_lt v "3.0" = true -> str_ge v "3.1.0" = false.
Proof.
  intros H. apply str_lt_le in H. unfold str_ge.
  destruct (String.leb "3.1.0" v) eqn:E; [|reflexivity].
  assert (Hle : strings.String.le "3.1.0" "3.0").
  { transitivity v; unfold strings.String.le;
      [now rewrite E | now rewrite H]. }
  unfold strings.String.le in Hle. now vm_compute in Hle.
Qed.

Lemma close_events_quiet hs :
  close_events (PyBool false) hs = map Close hs.
Proof.
  unfold close_events, closing. simpl. rewrite app_nil_r.
  induction hs as [|f hs IH]; [reflexivity|]. simpl. now rewrite IH.
Qed.

Section Script.

Variable gui_after_check : M unit.

(** X18: With a PyTables that the version check rejects, [gui] exits with
    the fatal message without going further, and the function registered
    for the exit then takes the branch of the older registries.  With a
    registry that is a dictionary it closes every open file, in the
    order of the dictionary, and writes nothing; with a registry object
    it raises the [AttributeError] of the missing [keys] and closes
    nothing. *)
Theorem main_rejected_version (w : World) :
  str_lt (tables_version w) "3.0" = true ->
  let fatal :=
    ExitMessage
      ("FATAL: PyTables version 3.0 or above is required, "
       ++ "installed version is " ++ tables_version w)%string in
  match open_files w with
  | FilesDict items =>
      exists w',
        main gui_after_check w = (SystemExit fatal, Returned tt, w')
        /\ trace w' = trace w ++ map Close (registered (open_files w))
  | FileRegistry _ =>
      main gui_after_check w
      = (SystemExit fatal,
         Raised (exception "AttributeError"
                   "'_FileRegistry' object has no attribute 'keys'"),
         w)
  end.
Proof.
  intros Hv fatal.
  pose proof (rejected_version_uses_keys _ Hv) as Hkeys.
  assert (Hgui : gui gui_after_check w = (SystemExit fatal, w)).
  { unfold gui, bind, _check_versions, bind, get. now rewrite Hv. }
  unfold main. rewrite Hgui. cbv beta iota.
  destruct (open_files w) as [hs|items] eqn:Hopen.
  - rewrite close_open_files_attribute.
    + rewrite Hkeys. simpl. rewrite add_events_nil. reflexivity.
    + unfold layout_matches. now rewrite Hopen.
  - pose proof (close_open_files_run (PyBool false) w) as Hrun.
    unfold layout_matches in Hrun. rewrite Hopen, Hkeys in Hrun.
    destruct Hrun as (w' & Hrun & Htrace).
    exists w'. rewrite Hrun. split; [reflexivity|].
    now rewrite Htrace, close_events_quiet.
Qed.

End Script.

Lemma catalan_locale_example :
  _set_locale (Some (fun _ => "ca_ES.UTF-8")) "ca_ES"
    (fun name _ => if String.eqb name "vitables_ca_ES"
                   then Some "vitables_ca_ES.qm" else None)
    "/usr/share/vitables/i18n"
    (process (fun _ => "C")
       (_set_credentials "3.0.3" (application "" "" "" "" [])))
  = Returned
      (translator (Some "vitables_ca_ES.qm"),
       process (setlocale LC_NUMERIC "C" (fun _ => "ca_ES.UTF-8"))
         (application "vitables.org" "ViTables" "ViTables" "3.0.3"
            [translator (Some "vitables_ca_ES.qm")])).
Proof. reflexivity. Qed.

Lemma main_rejected_version_witness :
  exists w',
    main (ret tt)
      (initial_world "2.4.1" (FilesDict [("b.h5", b_h5); ("a.h5", a_h5)]))
    = (SystemExit
         (ExitMessage
            ("FATAL: PyTables version 3.0 or above is required, "
             ++ "installed version is 2.4.1")%string),
       Returned tt, w')
    /\ trace w' = [Close b_h5; Close a_h5].
Proof.
  destruct (main_rejected_version (ret tt)
              (initial_world "2.4.1"
                 (FilesDict [("b.h5", b_h5); ("a.h5", a_h5)]))
              eq_refl) as (w' & Hmain & Htrace).
  exists w'. split; [exact Hmain|].
  rewrite Htrace. vm_compute. reflexivity.
Defined.

End StartupSpec.
